(** * A shallow embedding of the DevDonalds cookbook service
    (src/backend/py_template/devdonalds.py): the JSON payloads it receives,
    the [Cookbook] registry, the [/entry] handler [create_entry] and the
    [/summary] handler [get_summary] with its inner [flatten_recipe]. *)

From Stdlib Require Import ZArith QArith Ascii String List Bool Lia ListDec Relations Permutation.
Set Warnings "-register-all".

Import ListNotations.
Open Scope nat_scope.
Open Scope string_scope.
Open Scope list_scope.

(** ** JSON values as [request.get_json()] returns them.
    Finite numbers only: integers become Python [int], the others [float]. *)
Inductive json : Type :=
| JNull
| JBool (b : bool)
| JInt (z : Z)
| JFloat (q : Q)
| JStr (s : string)
| JArr (l : list json)
| JObj (o : list (string * json)).

(** [json.loads] keeps the last value of a repeated key. *)
Fixpoint obj_get (o : list (string * json)) (k : string) : option json :=
  match o with
  | [] => None
  | (k', v) :: rest =>
      match obj_get rest k with
      | Some w => Some w
      | None => if String.eqb k k' then Some v else None
      end
  end.

(** [d.get(k)]: a missing key reads as [None]. *)
Definition dict_get (o : list (string * json)) (k : string) : json :=
  match obj_get o k with Some v => v | None => JNull end.

(** Python truthiness, as used by [if not x]. *)
Definition truthy (v : json) : bool :=
  match v with
  | JNull => false
  | JBool b => b
  | JInt z => negb (Z.eqb z 0)
  | JFloat q => negb (Qeq_bool q 0)
  | JStr s => negb (String.eqb s "")
  | JArr l => match l with [] => false | _ => true end
  | JObj o => match o with [] => false | _ => true end
  end.

(** [isinstance(v, int)]; [bool] is a subclass of [int] in Python. *)
Definition py_int (v : json) : option Z :=
  match v with
  | JBool b => Some (Z.b2z b)
  | JInt z => Some z
  | _ => None
  end.

(** ** Dictionary keys.  A hashable value up to Python equality:
    [True == 1 == 1.0], so numbers are kept as reduced rationals. *)
Inductive pykey : Type :=
| KNone
| KNum (q : Q)
| KStr (s : string).

Definition Q_eq_dec (p q : Q) : {p = q} + {p <> q}.
Proof. decide equality; [apply Pos.eq_dec | apply Z.eq_dec]. Defined.

Definition pykey_eq_dec (a b : pykey) : {a = b} + {a <> b}.
Proof. decide equality; [apply Q_eq_dec | apply string_dec]. Defined.

(** [hash(v)]: lists and dicts are unhashable ([TypeError]). *)
Definition to_key (v : json) : option pykey :=
  match v with
  | JNull => Some KNone
  | JBool b => Some (KNum (Qred (inject_Z (Z.b2z b))))
  | JInt z => Some (KNum (Qred (inject_Z z)))
  | JFloat q => Some (KNum (Qred q))
  | JStr s => Some (KStr s)
  | JArr _ | JObj _ => None
  end.

(** ** Data model: the dataclasses. *)
Record RequiredItem : Type := mkRequiredItem {
  ri_name : string;
  quantity : Z
}.

(** [Ingredient] is only ever built with a string name ([entry_type]);
    [Recipe] keeps whatever JSON value the payload gave as [name]. *)
Inductive CookbookEntry : Type :=
| Ingredient (name : string) (cook_time : Z)
| Recipe (name : json) (required_items : list RequiredItem).

Definition entry_name (e : CookbookEntry) : json :=
  match e with
  | Ingredient n _ => JStr n
  | Recipe n _ => n
  end.

(** ** The registry [Cookbook.entries], a dict kept in insertion order. *)
Definition registry : Type := list (pykey * CookbookEntry).

Fixpoint lookup (cb : registry) (k : pykey) : option CookbookEntry :=
  match cb with
  | [] => None
  | (k', e) :: rest => if pykey_eq_dec k k' then Some e else lookup rest k
  end.

Inductive add_outcome : Type :=
| Added
| AlreadyExists  (* ValueError raised by add_entry *)
| Unhashable.    (* TypeError from [entry.name in self.entries] *)

(** [Cookbook.add_entry]. *)
Definition add_entry (cb : registry) (e : CookbookEntry) : add_outcome * registry :=
  match to_key (entry_name e) with
  | None => (Unhashable, cb)
  | Some k =>
      match lookup cb k with
      | Some _ => (AlreadyExists, cb)
      | None => (Added, app cb [(k, e)])
      end
  end.

(** ** The [/entry] handler. *)
Inductive response : Type :=
| R200
| R400
| R500.  (* an exception escapes the handler *)

Inductive items_outcome : Type :=
| ItemsOk (l : list RequiredItem)
| Items400
| ItemsCrash.  (* [item.get] on a non-dict element: AttributeError *)

(** The loop over [requiredItems], with the set [seen_names]. *)
Fixpoint parse_items (items : list json) (seen_names : list string) : items_outcome :=
  match items with
  | [] => ItemsOk []
  | item :: rest =>
      match item with
      | JObj o =>
          let item_name := dict_get o "name" in
          let qty := dict_get o "quantity" in
          if negb (truthy item_name) then Items400 else
          match item_name, py_int qty with
          | JStr s, Some q =>
              if existsb (String.eqb s) seen_names then Items400 else
              match parse_items rest (s :: seen_names) with
              | ItemsOk l => ItemsOk (mkRequiredItem s q :: l)
              | r => r
              end
          | _, _ => Items400
          end
      | _ => ItemsCrash
      end
  end.

(** [entry_type not in ("recipe", "ingredient")]. *)
Definition entry_type_of (v : json) : option string :=
  match v with
  | JStr s => if String.eqb s "recipe" || String.eqb s "ingredient" then Some s else None
  | _ => None
  end.

(** [try: cookbook.add_entry(..) except ValueError: return 400]. *)
Definition commit (cb : registry) (e : CookbookEntry) : response * registry :=
  match add_entry cb e with
  | (Added, cb') => (R200, cb')
  | (AlreadyExists, cb') => (R400, cb')
  | (Unhashable, cb') => (R500, cb')
  end.

Definition create_entry (cb : registry) (data : json) : response * registry :=
  match data with
  | JNull => (R400, cb)
  | JObj o =>
      match entry_type_of (dict_get o "type") with
      | None => (R400, cb)
      | Some entry_type =>
          let entry_name := dict_get o "name" in
          if negb (truthy entry_name) then (R400, cb) else
          if String.eqb entry_type "ingredient" then
            let cook_time := dict_get o "cookTime" in
            match cook_time with
            | JNull => (R400, cb)
            | _ =>
                match py_int cook_time with
                | None => (R400, cb)
                | Some t =>
                    if (t <? 0)%Z then (R400, cb)
                    else commit cb (Ingredient entry_type t)
                end
            end
          else
            match dict_get o "requiredItems" with
            | JArr required_items =>
                match parse_items required_items [] with
                | ItemsOk objs => commit cb (Recipe entry_name objs)
                | Items400 => (R400, cb)
                | ItemsCrash => (R500, cb)
                end
            | _ => (R400, cb)
            end
      end
  | _ => (R500, cb)  (* [data.get] on a non-dict body: AttributeError *)
  end.

(** A sequence of [/entry] requests. *)
Fixpoint run (cb : registry) (ds : list json) : list response * registry :=
  match ds with
  | [] => ([], cb)
  | d :: rest =>
      let '(r, cb1) := create_entry cb d in
      let '(rs, cb2) := run cb1 rest in
      (r :: rs, cb2)
  end.

(** ** The [/summary] handler. *)

(** The local dict [flat] of [flatten_recipe]: string keys (ingredient names),
    in insertion order. *)
Definition flat_dict : Type := list (string * Z).

(** [flat[k] = flat.get(k, 0) + v]. *)
Fixpoint dict_add (flat : flat_dict) (k : string) (v : Z) : flat_dict :=
  match flat with
  | [] => [(k, v)]
  | (k', x) :: rest =>
      if String.eqb k k' then (k', (x + v)%Z) :: rest
      else (k', x) :: dict_add rest k v
  end.

(** [for ing, sub_qty in sub_flat.items(): flat[ing] = flat.get(ing, 0) + sub_qty]. *)
Definition merge (flat sub_flat : flat_dict) : flat_dict :=
  fold_left (fun acc '(ing, sub_qty) => dict_add acc ing sub_qty) sub_flat flat.

Inductive flat_result : Type :=
| FOk (flat : flat_dict)
| FValueError   (* "Required item ... not found in the cookbook." *)
| FOutOfFuel.   (* the recursion has not bottomed out within [fuel] calls *)

(** The body of [flatten_recipe]: the [for req in recipe.required_items]
    loop with its accumulator [flat]; [rec] is the recursive call
    [flatten_recipe(item, multiplier=qty)]. *)
Fixpoint flatten_items (rec : list RequiredItem -> Z -> flat_result) (cb : registry)
    (multiplier : Z) (reqs : list RequiredItem) (flat : flat_dict) : flat_result :=
  match reqs with
  | [] => FOk flat
  | req :: rest =>
      match lookup cb (KStr (ri_name req)) with
      | None => FValueError
      | Some item =>
          let qty := (quantity req * multiplier)%Z in
          match item with
          | Ingredient n _ => flatten_items rec cb multiplier rest (dict_add flat n qty)
          | Recipe _ sub =>
              match rec sub qty with
              | FOk sub_flat => flatten_items rec cb multiplier rest (merge flat sub_flat)
              | r => r
              end
          end
      end
  end.

(** [flatten_recipe(recipe, multiplier)], given the recipe's
    [required_items]; [flat] starts as [{}].  [fuel] bounds the depth of the
    recursion: Python's recursion is unbounded (cyclic recipes end in
    RecursionError). *)
Fixpoint flatten_recipe (fuel : nat) (cb : registry)
    (required_items : list RequiredItem) (multiplier : Z) : flat_result :=
  match fuel with
  | O => FOutOfFuel
  | S fuel' =>
      flatten_items (fun sub qty => flatten_recipe fuel' cb sub qty)
        cb multiplier required_items []
  end.

Inductive summary_response : Type :=
| S200 (name : string) (cookTime : Z) (ingredients : list (string * Z))
| S400
| S500.  (* the flattening recursion never returns (RecursionError) *)

(** The loop over [base_ingredients.items()]: [None] is the early 400. *)
Fixpoint total_cook_time (cb : registry) (base : flat_dict) (total : Z)
    (ingredients_list : list (string * Z)) : option (Z * list (string * Z)) :=
  match base with
  | [] => Some (total, ingredients_list)
  | (ing_name, q) :: rest =>
      match lookup cb (KStr ing_name) with
      | Some (Ingredient _ ct) =>
          total_cook_time cb rest (total + ct * q)%Z (app ingredients_list [(ing_name, q)])
      | _ => None
      end
  end.

(** [get_summary], with [request.args.get("name")] as [arg]. *)
Definition get_summary (fuel : nat) (cb : registry) (arg : option string) : summary_response :=
  match arg with
  | None => S400
  | Some recipe_name =>
      if String.eqb recipe_name "" then S400 else
      match lookup cb (KStr recipe_name) with
      | None => S400
      | Some (Ingredient _ _) => S400
      | Some (Recipe _ items) =>
          match flatten_recipe fuel cb items 1 with
          | FValueError => S400
          | FOutOfFuel => S500
          | FOk base_ingredients =>
              match total_cook_time cb base_ingredients 0 [] with
              | None => S400
              | Some (t, l) => S200 recipe_name t l
              end
          end
      end
  end.

(** ** Notions used by the properties. *)

Definition map_result (f : flat_dict -> flat_dict) (r : flat_result) : flat_result :=
  match r with
  | FOk flat => FOk (f flat)
  | FValueError => FValueError
  | FOutOfFuel => FOutOfFuel
  end.

(** Every quantity of an accumulator multiplied by [m]. *)
Definition scale (m : Z) (flat : flat_dict) : flat_dict :=
  map (fun '(k, q) => (k, (m * q)%Z)) flat.

(** Registries the service can be in: the empty one at start-up, and any
    state a [/entry] request leads to. *)
Inductive reachable : registry -> Prop :=
| reachable_empty : reachable []
| reachable_step cb d : reachable cb -> reachable (snd (create_entry cb d)).

(** A [/entry] payload of type ["ingredient"]. *)
Definition ingredient_request (d : json) : bool :=
  match d with
  | JObj o =>
      match dict_get o "type" with
      | JStr s => String.eqb s "ingredient"
      | _ => false
      end
  | _ => false
  end.

Definition is_ingredient_entry (p : pykey * CookbookEntry) : bool :=
  match snd p with
  | Ingredient _ _ => true
  | Recipe _ _ => false
  end.

(** A sequence of [add_entry] calls (failures leave the registry as is). *)
Definition insert_all (cb : registry) (es : list CookbookEntry) : registry :=
  fold_left (fun acc e => snd (add_entry acc e)) es cb.

(** The recipe-reference graph: recipe [a] lists a required item named [b]. *)
Definition refers (cb : registry) (a b : pykey) : Prop :=
  exists n items req,
    lookup cb a = Some (Recipe n items) /\ In req items /\ b = KStr (ri_name req).

Definition acyclic (cb : registry) : Prop :=
  forall a, ~ clos_trans pykey (refers cb) a a.

(** Required items that reach, directly or through nested recipes, a name
    absent from the registry. *)
Inductive requires_missing (cb : registry) : list RequiredItem -> Prop :=
| missing_here req items :
    In req items -> lookup cb (KStr (ri_name req)) = None ->
    requires_missing cb items
| missing_nested req items n sub :
    In req items -> lookup cb (KStr (ri_name req)) = Some (Recipe n sub) ->
    requires_missing cb sub -> requires_missing cb items.

(** Keys are unique, and each entry sits under the key of its own name. *)
Definition names_wf (cb : registry) : Prop :=
  NoDup (map fst cb) /\ forall k e, In (k, e) cb -> to_key (entry_name e) = Some k.

(** Every ingredient is stored under ["ingredient"] with that name. *)
Definition ingredients_under_type_key (cb : registry) : Prop :=
  forall k n t, In (k, Ingredient n t) cb -> k = KStr "ingredient" /\ n = "ingredient".

(** A walk down nested recipes: each key is a recipe required by the
    previous one (the first by [items]). *)
Inductive chain (cb : registry) : list RequiredItem -> list pykey -> Prop :=
| chain_nil items : chain cb items []
| chain_cons items req n sub ks :
    In req items -> lookup cb (KStr (ri_name req)) = Some (Recipe n sub) ->
    chain cb sub ks -> chain cb items (KStr (ri_name req) :: ks).

Definition pykey_decidable_eq : decidable_eq pykey :=
  fun a b => match pykey_eq_dec a b with
             | left h => or_introl h
             | right h => or_intror h
             end.

(** ** Concrete payloads. *)
Definition ingredient_payload (n : string) (t : Z) : json :=
  JObj [("type", JStr "ingredient"); ("name", JStr n); ("cookTime", JInt t)].

Definition recipe_payload (n : string) (items : list (string * Z)) : json :=
  JObj [("type", JStr "recipe"); ("name", JStr n);
        ("requiredItems",
          JArr (map (fun '(m, q) => JObj [("name", JStr m); ("quantity", JInt q)]) items))].

Definition omelette_requests : list json :=
  [ingredient_payload "Egg" 5;
   recipe_payload "Omelette" [("Egg", 2%Z)];
   recipe_payload "BigOmelette" [("Omelette", 2%Z)]].

Example omelette_try :
  run [] omelette_requests =
    ([R200; R200; R200],
     [(KStr "ingredient", Ingredient "ingredient" 5);
      (KStr "Omelette", Recipe (JStr "Omelette") [mkRequiredItem "Egg" 2]);
      (KStr "BigOmelette", Recipe (JStr "BigOmelette") [mkRequiredItem "Omelette" 2])]).
Proof. reflexivity. Qed.

Example omelette_summary_try :
  get_summary 10 (snd (run [] omelette_requests)) (Some "BigOmelette") = S400.
Proof. reflexivity. Qed.

(** A recipe whose required items are not all dicts. *)
Definition malformed_items_payload : json :=
  JObj [("type", JStr "recipe"); ("name", JStr "R"); ("requiredItems", JArr [JStr "x"])].

(** A recipe whose name is a number. *)
Definition numeric_name_payload : json :=
  JObj [("type", JStr "recipe"); ("name", JInt 5); ("requiredItems", JArr [])].

(** A recipe that requires itself before a name never registered. *)
Definition cyclic_requests : list json :=
  [recipe_payload "A" [("A", 1%Z); ("Missing", 1%Z)]].

Definition cyclic_items : list RequiredItem :=
  [mkRequiredItem "A" 1; mkRequiredItem "Missing" 1].

(** ** [parse_handwriting] and the [/parse] endpoint.
    Characters are Rocq [ascii]; the character classes below are Python's on
    ASCII code points (0-127), the domain on which this model is the
    Python function (see [ascii_only]). *)

Definition is_upper (c : ascii) : bool :=
  let n := nat_of_ascii c in (Nat.leb 65 n) && (Nat.leb n 90).

Definition is_lower (c : ascii) : bool :=
  let n := nat_of_ascii c in (Nat.leb 97 n) && (Nat.leb n 122).

(** [str.isalpha] (and [_PyUnicode_IsCased]) on ASCII. *)
Definition is_alpha (c : ascii) : bool := is_upper c || is_lower c.

(** [str.isspace] on ASCII: \t \n \v \f \r, the separators 0x1c-0x1f, space. *)
Definition py_isspace (c : ascii) : bool :=
  let n := nat_of_ascii c in ((Nat.leb 9 n) && (Nat.leb n 13)) || ((Nat.leb 28 n) && (Nat.leb n 32)).

Definition lower_char (c : ascii) : ascii :=
  if is_upper c then ascii_of_nat (nat_of_ascii c + 32) else c.

Definition upper_char (c : ascii) : ascii :=
  if is_lower c then ascii_of_nat (nat_of_ascii c - 32) else c.

Fixpoint ascii_only (s : string) : bool :=
  match s with
  | EmptyString => true
  | String c r => Nat.ltb (nat_of_ascii c) 128 && ascii_only r
  end.

(** [recipeName.lower()]. *)
Fixpoint str_lower (s : string) : string :=
  match s with
  | EmptyString => EmptyString
  | String c r => String (lower_char c) (str_lower r)
  end.

(** The [for char in recipeName] loop building [output_string]. *)
Fixpoint keep_chars (s : string) : string :=
  match s with
  | EmptyString => EmptyString
  | String c r =>
      if is_alpha c || Ascii.eqb c " "%char then String c (keep_chars r)
      else if Ascii.eqb c "_"%char || Ascii.eqb c "-"%char then String " "%char (keep_chars r)
      else keep_chars r
  end.

(** [str.title()], as CPython's [do_title]: each character is lowered when
    the previous one is cased and title-cased otherwise. *)
Fixpoint title_from (previous_is_cased : bool) (s : string) : string :=
  match s with
  | EmptyString => EmptyString
  | String c r =>
      String (if previous_is_cased then lower_char c else upper_char c)
             (title_from (is_alpha c) r)
  end.

Definition str_title (s : string) : string := title_from false s.

Definition starts_nonspace (s : string) : bool :=
  match s with
  | EmptyString => false
  | String c _ => negb (py_isspace c)
  end.

(** [str.split()]: the maximal runs of non-whitespace characters. *)
Fixpoint py_split (s : string) : list string :=
  match s with
  | EmptyString => []
  | String c r =>
      if py_isspace c then py_split r
      else match starts_nonspace r, py_split r with
           | true, w :: ws => String c w :: ws
           | _, ws => String c EmptyString :: ws
           end
  end.

Definition parse_handwriting (recipeName : string) : option string :=
  let output_string :=
    String.concat " " (py_split (str_title (keep_chars (str_lower recipeName)))) in
  if Nat.ltb (String.length output_string) 1 then None else Some output_string.

Inductive parse_response : Type :=
| P200 (msg : string)
| P400              (* 'Invalid recipe name' *)
| P500.             (* [.lower()] on a non-string, or [.get] on a non-dict *)

(** The [/parse] handler: [data.get('input', '')]. *)
Definition parse (data : json) : parse_response :=
  match data with
  | JObj o =>
      let recipe_name := match obj_get o "input" with Some v => v | None => JStr "" end in
      match recipe_name with
      | JStr s =>
          match parse_handwriting s with
          | Some parsed_name => P200 parsed_name
          | None => P400
          end
      | _ => P500
      end
  | _ => P500
  end.

Fixpoint has_letter (s : string) : bool :=
  match s with
  | EmptyString => false
  | String c r => is_alpha c || has_letter r
  end.

(** A title-cased name: words of ASCII letters, each an upper-case letter
    followed by lower-case ones, separated by single spaces, with no space at
    either end. *)
Fixpoint tc_from (prev_alpha : bool) (s : string) : bool :=
  match s with
  | EmptyString => prev_alpha
  | String c r =>
      if Ascii.eqb c " "%char then prev_alpha && tc_from false r
      else if is_lower c then prev_alpha && tc_from true r
      else if is_upper c then negb prev_alpha && tc_from true r
      else false
  end.

Definition title_cased_name (s : string) : bool := tc_from false s.

(** Strings of lower-case letters and spaces (the loop's output after
    [lower()]). *)
Fixpoint clean (s : string) : bool :=
  match s with
  | EmptyString => true
  | String c r => (is_lower c || Ascii.eqb c " "%char) && clean r
  end.

Fixpoint lower_run (s : string) : bool :=
  match s with
  | EmptyString => true
  | String c r => is_lower c && lower_run r
  end.

Definition word_ok (w : string) : bool :=
  match w with
  | EmptyString => false
  | String c r => is_upper c && lower_run r
  end.

Definition starts_letter (s : string) : bool :=
  match s with
  | EmptyString => false
  | String c _ => is_alpha c
  end.

Fixpoint has_nonspace (s : string) : bool :=
  match s with
  | EmptyString => false
  | String c r => negb (py_isspace c) || has_nonspace r
  end.

(** [Cookbook.get_entry]: [self.entries[name]]; [None] when it raises
    (KeyError, or TypeError for an unhashable name). *)
Definition get_entry (cb : registry) (name : json) : option CookbookEntry :=
  match to_key name with
  | Some k => lookup cb k
  | None => None
  end.

(** An element of [requiredItems] that passes the loop's checks: a dict
    with a non-empty string ["name"] and an [int] ["quantity"]. *)
Definition item_fields (j : json) : option RequiredItem :=
  match j with
  | JObj o =>
      match dict_get o "name", py_int (dict_get o "quantity") with
      | JStr s, Some q => if String.eqb s "" then None else Some (mkRequiredItem s q)
      | _, _ => None
      end
  | _ => None
  end.

(** [flat.get(k, 0)]: the first binding of [k], as the dict holds one. *)
Fixpoint flat_get (flat : flat_dict) (k : string) : Z :=
  match flat with
  | [] => 0%Z
  | (k', q) :: rest => if String.eqb k k' then q else flat_get rest k
  end.

(** The sum of all quantities bound to [k]. *)
Fixpoint fsum (flat : flat_dict) (k : string) : Z :=
  match flat with
  | [] => 0%Z
  | (k', q) :: rest => ((if String.eqb k k' then q else 0) + fsum rest k)%Z
  end.

(** The cook time of the ingredient stored under [n] (0 if there is none). *)
Definition cook_time_of (cb : registry) (n : string) : Z :=
  match lookup cb (KStr n) with
  | Some (Ingredient _ ct) => ct
  | _ => 0%Z
  end.

(** [sum(cook_time * quantity)] over a list of ingredient lines. *)
Definition weighted_total (cb : registry) (l : list (string * Z)) : Z :=
  fold_right (fun '(n, q) acc => (cook_time_of cb n * q + acc)%Z) 0%Z l.

(** A registry built directly, with [Egg] under its own name. *)
Definition egg_registry : registry :=
  [(KStr "Egg", Ingredient "Egg" 5);
   (KStr "Omelette", Recipe (JStr "Omelette") [mkRequiredItem "Egg" 2]);
   (KStr "BigOmelette", Recipe (JStr "BigOmelette") [mkRequiredItem "Omelette" 2])].

(** ** Sanity checks on concrete inputs. *)

Example egg_registry_summary :
  get_summary 3
    [(KStr "Egg", Ingredient "Egg" 5);
     (KStr "Omelette", Recipe (JStr "Omelette") [mkRequiredItem "Egg" 2]);
     (KStr "BigOmelette", Recipe (JStr "BigOmelette") [mkRequiredItem "Omelette" 2])]
    (Some "BigOmelette")
  = S200 "BigOmelette" 20 [("Egg", 4%Z)].
Proof. reflexivity. Qed.

Example cyclic_try : get_summary 50 (snd (run [] cyclic_requests)) (Some "A") = S500.
Proof. reflexivity. Qed.

Example malformed_try : create_entry [] malformed_items_payload = (R500, []).
Proof. reflexivity. Qed.

Example numeric_try : fst (create_entry [] numeric_name_payload) = R200.
Proof. reflexivity. Qed.

Example parse_handwriting_try :
  parse_handwriting "Riz@z RISO00tto!" = Some "Rizz Risotto" /\
  parse_handwriting "alpHa-alFRedo" = Some "Alpha Alfredo" /\
  parse_handwriting "  meat__ball " = Some "Meat Ball" /\
  parse_handwriting " _-9 " = None.
Proof. repeat split; reflexivity. Qed.

(** ** Registry lemmas. *)

Lemma lookup_app_l cb l k e :
  lookup cb k = Some e -> lookup (cb ++ l) k = Some e.
Proof.
  induction cb as [|[k' e'] cb IH]; simpl; [discriminate|].
  destruct (pykey_eq_dec k k'); auto.
Qed.

Lemma lookup_None_notin cb k : lookup cb k = None -> ~ In k (map fst cb).
Proof.
  induction cb as [|[k' e'] cb IH]; simpl; [auto|].
  destruct (pykey_eq_dec k k') as [<-|Hne]; [discriminate|].
  intros Hl [Heq|Hin]; [congruence | exact (IH Hl Hin)].
Qed.

Lemma lookup_some_in cb k e : lookup cb k = Some e -> In k (map fst cb).
Proof.
  induction cb as [|[k' e'] cb IH]; simpl; [discriminate|].
  destruct (pykey_eq_dec k k'); auto.
Qed.

Lemma lookup_in_none cb k e : In (k, e) cb -> lookup cb k <> None.
Proof.
  induction cb as [|[k' e'] cb IH]; simpl; [tauto|].
  destruct (pykey_eq_dec k k') as [|Hne]; [discriminate|].
  intros [Heq|Hin]; [inversion Heq; congruence | exact (IH Hin)].
Qed.

Lemma NoDup_snoc {A} (l : list A) x : NoDup l -> ~ In x l -> NoDup (l ++ [x]).
Proof.
  induction l as [|a l IH]; simpl; intros Hnd Hx.
  - constructor; [tauto | constructor].
  - inversion Hnd as [|? ? Ha Hl]; subst. constructor.
    + rewrite in_app_iff. simpl. intros [H|[H|H]]; [tauto | subst; tauto | tauto].
    + apply IH; tauto.
Qed.

Lemma add_entry_cases cb e r cb' :
  add_entry cb e = (r, cb') ->
  (r <> Added /\ cb' = cb) \/
  (r = Added /\ exists k, to_key (entry_name e) = Some k /\ lookup cb k = None /\
                          cb' = cb ++ [(k, e)]).
Proof.
  unfold add_entry. destruct (to_key (entry_name e)) as [k|].
  - destruct (lookup cb k) eqn:Hl; intros H; injection H as <- <-.
    + left. split; [discriminate | reflexivity].
    + right. split; [reflexivity|]. exists k. auto.
  - intros H; injection H as <- <-. left. split; [discriminate | reflexivity].
Qed.

Lemma commit_cases cb e r cb' :
  commit cb e = (r, cb') ->
  (r <> R200 /\ cb' = cb) \/ (r = R200 /\ add_entry cb e = (Added, cb')).
Proof.
  unfold commit. destruct (add_entry cb e) as [o c] eqn:Ha.
  destruct o; intros H; injection H as <- <-; [right; auto | left ..];
    (destruct (add_entry_cases _ _ _ _ Ha) as [[_ ->]|[Hc _]];
       [split; [discriminate | reflexivity] | discriminate]).
Qed.

(** Splits a hypothesis [create_entry ... = (r, cb')] along the branches of
    the handler. *)
Ltac split_handler_with H lem :=
  repeat match type of H with
  | (_, _) = (_, _) => injection H as <- <-
  | commit _ _ = _ => apply lem in H
  | context [match ?x with _ => _ end] => destruct x eqn:?
  end.

Ltac split_handler H := split_handler_with H commit_cases.

(** Every answer but 200 leaves the registry as it was; a 200 is one
    successful [add_entry], of an ingredient named ["ingredient"] or of a
    recipe. *)
Lemma create_entry_cases cb d r cb' :
  create_entry cb d = (r, cb') ->
  (r <> R200 /\ cb' = cb) \/
  (r = R200 /\ ((exists t, add_entry cb (Ingredient "ingredient" t) = (Added, cb')) \/
                (exists n items, add_entry cb (Recipe n items) = (Added, cb')))).
Proof.
  unfold create_entry. intros H. split_handler H;
    try (left; split; [discriminate | reflexivity]);
    try (destruct H as [[Hr ->]|[-> Ha]]; [left; auto | right; split; [reflexivity|]]);
    try (right; eauto; fail).
  all: left; match goal with
       | E : entry_type_of _ = Some ?ty, B : String.eqb ?ty _ = true |- _ =>
           apply String.eqb_eq in B; subst ty; eauto
       end.
Qed.

Lemma commit_ingredient cb n t r cb' :
  commit cb (Ingredient n t) = (r, cb') ->
  (r = R400 /\ cb' = cb) \/ (r = R200 /\ add_entry cb (Ingredient n t) = (Added, cb')).
Proof.
  unfold commit, add_entry. simpl.
  destruct (lookup cb (KStr n)); intros H; injection H as <- <-; auto.
Qed.

(** A payload of type ["ingredient"] gets 400 and changes nothing, or gets
    200 after adding an ingredient named ["ingredient"]. *)
Lemma ingredient_request_cases cb d r cb' :
  ingredient_request d = true -> create_entry cb d = (r, cb') ->
  (r = R400 /\ cb' = cb) \/
  (r = R200 /\ exists t, add_entry cb (Ingredient "ingredient" t) = (Added, cb')).
Proof.
  destruct d as [| | | | | |o]; try discriminate. unfold ingredient_request.
  destruct (dict_get o "type") as [| | | | s | |] eqn:Ht; try discriminate.
  intros Hs. apply String.eqb_eq in Hs. subst s.
  unfold create_entry. rewrite Ht. simpl.
  intros H. split_handler_with H commit_ingredient; auto.
  all: destruct H as [|[-> Ha]]; eauto.
Qed.

Lemma create_entry_extends cb d : exists l, snd (create_entry cb d) = cb ++ l.
Proof.
  destruct (create_entry cb d) as [r cb'] eqn:He. simpl.
  destruct (create_entry_cases _ _ _ _ He) as [[_ ->]|[_ [[t Ha]|[n [items Ha]]]]];
    [exists []; rewrite app_nil_r; reflexivity | |];
    destruct (add_entry_cases _ _ _ _ Ha) as [[Hc _]|[_ [k [_ [_ ->]]]]];
    try congruence; eauto.
Qed.

Lemma run_extends cb ds : exists l, snd (run cb ds) = cb ++ l.
Proof.
  revert cb. induction ds as [|d ds IH]; intros cb; simpl.
  - exists []. rewrite app_nil_r. reflexivity.
  - destruct (create_entry cb d) as [r cb1] eqn:He.
    destruct (run cb1 ds) as [rs cb2] eqn:Hr. simpl.
    destruct (create_entry_extends cb d) as [l1 Hl1]. rewrite He in Hl1. simpl in Hl1.
    destruct (IH cb1) as [l2 Hl2]. rewrite Hr in Hl2. simpl in Hl2.
    exists (l1 ++ l2). rewrite Hl2, Hl1, app_assoc. reflexivity.
Qed.

Lemma run_reachable cb ds : reachable cb -> reachable (snd (run cb ds)).
Proof.
  revert cb. induction ds as [|d ds IH]; intros cb Hr; simpl; [exact Hr|].
  destruct (create_entry cb d) as [r cb1] eqn:He.
  destruct (run cb1 ds) as [rs cb2] eqn:Hrun. simpl.
  assert (H1 : reachable cb1).
  { replace cb1 with (snd (create_entry cb d)) by (rewrite He; reflexivity).
    constructor. exact Hr. }
  specialize (IH cb1 H1). rewrite Hrun in IH. exact IH.
Qed.

Lemma reachable_inv cb :
  reachable cb -> NoDup (map fst cb) /\ ingredients_under_type_key cb.
Proof.
  induction 1 as [|cb d Hr [Hnd Hing]].
  - split; [constructor | intros ? ? ? []].
  - destruct (create_entry cb d) as [r cb'] eqn:He. simpl.
    destruct (create_entry_cases _ _ _ _ He) as [[_ ->]|[_ [[t Ha]|[n [items Ha]]]]];
      [split; assumption | |];
      destruct (add_entry_cases _ _ _ _ Ha) as [[Hc _]|[_ [k [Hk [Hl ->]]]]];
      try congruence; (split;
        [rewrite map_app; apply NoDup_snoc; [assumption | apply lookup_None_notin; assumption]|]);
      intros k' n' t' Hin; apply in_app_iff in Hin;
      (destruct Hin as [Hin|[Heq|[]]]; [apply (Hing _ _ _ Hin)|]).
    + simpl in Hk. injection Hk as <-. injection Heq as <- <- _. auto.
    + discriminate Heq.
Qed.

Lemma no_ingredient_without_key cb :
  ingredients_under_type_key cb -> ~ In (KStr "ingredient") (map fst cb) ->
  filter is_ingredient_entry cb = [].
Proof.
  induction cb as [|[k e] cb IH]; simpl; intros Hing Hnot; [reflexivity|].
  assert (Hing' : ingredients_under_type_key cb)
    by (intros k' n' t' Hin; apply (Hing k' n' t'); right; exact Hin).
  destruct e as [n t|n items]; simpl.
  - destruct (Hing k n t (or_introl eq_refl)) as [-> _]. tauto.
  - apply IH; tauto.
Qed.

Lemma ingredient_count cb :
  NoDup (map fst cb) -> ingredients_under_type_key cb ->
  length (filter is_ingredient_entry cb) <= 1.
Proof.
  induction cb as [|[k e] cb IH]; simpl; intros Hnd Hing; [lia|].
  inversion Hnd as [|? ? Hk Hnd']; subst.
  assert (Hing' : ingredients_under_type_key cb)
    by (intros k' n' t' Hin; apply (Hing k' n' t'); right; exact Hin).
  destruct e as [n t|n items]; simpl.
  - destruct (Hing k n t (or_introl eq_refl)) as [-> _].
    rewrite (no_ingredient_without_key cb Hing' Hk). simpl. lia.
  - apply IH; assumption.
Qed.

Lemma add_entry_wf cb e : names_wf cb -> names_wf (snd (add_entry cb e)).
Proof.
  intros [Hnd Hk]. destruct (add_entry cb e) as [r cb'] eqn:Ha. simpl.
  destruct (add_entry_cases _ _ _ _ Ha) as [[_ ->]|[_ [k [Hke [Hl ->]]]]];
    [split; assumption|split].
  - rewrite map_app. apply NoDup_snoc; [assumption | apply lookup_None_notin; assumption].
  - intros k' e' Hin. apply in_app_iff in Hin.
    destruct Hin as [Hin|[Heq|[]]]; [apply Hk; exact Hin | injection Heq as <- <-; exact Hke].
Qed.

Lemma insert_all_wf cb es : names_wf cb -> names_wf (insert_all cb es).
Proof.
  unfold insert_all. revert cb.
  induction es as [|e es IH]; intros cb Hwf; simpl; [exact Hwf|].
  apply IH. apply add_entry_wf. exact Hwf.
Qed.

(** ** Claims about [/entry] and the registry. *)

(** C1 (code evaluated at the nested example): the three [/entry] requests
    all get 200, but [Egg] is stored under the key ["ingredient"], so
    [GET /summary?name=BigOmelette] answers 400 whenever the recursion has
    room to reach [Egg] (and never 200). *)
Theorem nested_example_summary_fails :
  fst (run [] omelette_requests) = [R200; R200; R200] /\
  lookup (snd (run [] omelette_requests)) (KStr "Egg") = None /\
  (forall fuel,
     get_summary (S (S fuel)) (snd (run [] omelette_requests)) (Some "BigOmelette") = S400) /\
  (forall fuel name t l,
     get_summary fuel (snd (run [] omelette_requests)) (Some "BigOmelette") <> S200 name t l).
Proof.
  split; [reflexivity|]. split; [reflexivity|]. split.
  - intros fuel. reflexivity.
  - intros [|[|fuel]] name t l; discriminate.
Qed.

(** C2 (code evaluated): a 200 for an ingredient payload named [n] stores
    the entry under the key ["ingredient"] with the name ["ingredient"],
    whatever [n] is; the key [n] itself stays absent (for [n] other than
    ["ingredient"]). *)
Theorem ingredient_stored_under_type_name cb n t :
  n <> "" -> (0 <= t)%Z -> lookup cb (KStr "ingredient") = None ->
  create_entry cb (ingredient_payload n t) =
    (R200, cb ++ [(KStr "ingredient", Ingredient "ingredient" t)]).
Proof.
  intros Hn Ht Hl. unfold create_entry, ingredient_payload, dict_get. simpl.
  destruct (String.eqb n "") eqn:He; [apply String.eqb_eq in He; contradiction|]. simpl.
  destruct (t <? 0)%Z eqn:Hlt; [apply Z.ltb_lt in Hlt; lia|].
  unfold commit, add_entry. simpl. rewrite Hl. reflexivity.
Qed.

Lemma ingredient_stored_under_type_name_witness :
  create_entry [] (ingredient_payload "Egg" 5) =
    (R200, [(KStr "ingredient", Ingredient "ingredient" 5)]) /\
  lookup [(KStr "ingredient", Ingredient "ingredient" 5)] (KStr "Egg") = None.
Proof.
  split; [|reflexivity].
  apply (ingredient_stored_under_type_name [] "Egg" 5);
    [discriminate | lia | reflexivity].
Defined.

(** C3: in every reachable registry each ingredient sits under the key
    ["ingredient"] with the name ["ingredient"], so there is at most one;
    after one ingredient payload got 200, every later ingredient payload
    gets 400, whatever requests came in between. *)
Theorem ingredient_single_slot cb :
  reachable cb ->
  (forall k n t, In (k, Ingredient n t) cb -> k = KStr "ingredient" /\ n = "ingredient") /\
  length (filter is_ingredient_entry cb) <= 1 /\
  (forall d ds d',
     ingredient_request d = true -> fst (create_entry cb d) = R200 ->
     ingredient_request d' = true ->
     fst (create_entry (snd (run (snd (create_entry cb d)) ds)) d') = R400).
Proof.
  intros Hr. destruct (reachable_inv cb Hr) as [Hnd Hing].
  split; [exact Hing|]. split; [apply ingredient_count; assumption|].
  intros d ds d' Hd H200 Hd'.
  destruct (create_entry cb d) as [r cb1] eqn:He. simpl in H200 |- *. subst r.
  destruct (ingredient_request_cases _ _ _ _ Hd He) as [[Hc _]|[_ [t Ha]]]; [discriminate|].
  destruct (add_entry_cases _ _ _ _ Ha) as [[Hc _]|[_ [k [Hk [_ ->]]]]]; [congruence|].
  simpl in Hk. injection Hk as <-.
  destruct (run_extends (cb ++ [(KStr "ingredient", Ingredient "ingredient" t)]) ds)
    as [l Hl].
  rewrite Hl.
  set (cb2 := (cb ++ [(KStr "ingredient", Ingredient "ingredient" t)]) ++ l).
  assert (Hin : lookup cb2 (KStr "ingredient") <> None).
  { apply (lookup_in_none _ _ (Ingredient "ingredient" t)).
    unfold cb2. apply in_app_iff. left. apply in_app_iff. right. left. reflexivity. }
  destruct (create_entry cb2 d') as [r' cb3] eqn:He'. simpl.
  destruct (ingredient_request_cases _ _ _ _ Hd' He') as [[-> _]|[_ [t' Ha']]]; [reflexivity|].
  destruct (add_entry_cases _ _ _ _ Ha') as [[Hc _]|[_ [k [Hk [Hl' _]]]]]; [congruence|].
  simpl in Hk. injection Hk as <-. contradiction.
Qed.

Lemma ingredient_single_slot_witness :
  reachable (snd (run [] omelette_requests)) /\
  length (filter is_ingredient_entry (snd (run [] omelette_requests))) <= 1.
Proof.
  assert (Hr : reachable (snd (run [] omelette_requests)))
    by exact (reachable_step _ (recipe_payload "BigOmelette" [("Omelette", 2%Z)])
               (reachable_step _ (recipe_payload "Omelette" [("Egg", 2%Z)])
                 (reachable_step _ (ingredient_payload "Egg" 5) reachable_empty))).
  split; [exact Hr|].
  exact (proj1 (proj2 (ingredient_single_slot _ Hr))).
Defined.

(** C4 (code evaluated): a recipe payload whose [requiredItems] holds a
    string makes [item.get] raise AttributeError, which the handler does not
    catch: the answer is a server error, neither 200 nor 400. *)
Theorem malformed_item_crashes :
  create_entry [] malformed_items_payload = (R500, []).
Proof. reflexivity. Qed.

(** C5: after any sequence of [add_entry] calls from the empty registry no
    two entries have equal names (as dict keys), and inserting a name
    already present fails with the registry unchanged. *)
Theorem registry_names_unique :
  (forall es i j ki ei kj ej,
     nth_error (insert_all [] es) i = Some (ki, ei) ->
     nth_error (insert_all [] es) j = Some (kj, ej) ->
     to_key (entry_name ei) = to_key (entry_name ej) -> i = j) /\
  (forall cb e k,
     to_key (entry_name e) = Some k -> lookup cb k <> None ->
     add_entry cb e = (AlreadyExists, cb)).
Proof.
  split.
  - intros es i j ki ei kj ej Hi Hj Hname.
    assert (Hwf : names_wf (insert_all [] es))
      by (apply insert_all_wf; split; [constructor | intros ? ? []]).
    destruct Hwf as [Hnd Hk].
    pose proof (Hk _ _ (nth_error_In _ _ Hi)) as Hki.
    pose proof (Hk _ _ (nth_error_In _ _ Hj)) as Hkj.
    rewrite Hname, Hkj in Hki. injection Hki as <-.
    apply (proj1 (NoDup_nth_error _) Hnd).
    + rewrite length_map. apply nth_error_Some. congruence.
    + rewrite !nth_error_map, Hi, Hj. reflexivity.
  - intros cb e k Hk Hl. unfold add_entry. rewrite Hk.
    destruct (lookup cb k); [reflexivity | contradiction].
Qed.

Lemma registry_names_unique_witness :
  add_entry (snd (run [] omelette_requests)) (Recipe (JStr "Omelette") [])
    = (AlreadyExists, snd (run [] omelette_requests)).
Proof.
  apply (proj2 registry_names_unique _ _ (KStr "Omelette")).
  - reflexivity.
  - vm_compute. discriminate.
Defined.

(** C6: a [/entry] request answered 400 leaves the registry exactly as it
    was. *)
Theorem rejected_request_keeps_registry cb d cb' :
  create_entry cb d = (R400, cb') -> cb' = cb.
Proof.
  intros H. destruct (create_entry_cases _ _ _ _ H) as [[_ ->]|[Hr _]];
    [reflexivity | discriminate].
Qed.

Lemma rejected_request_keeps_registry_witness :
  snd (create_entry (snd (run [] omelette_requests)) (recipe_payload "Omelette" [("Egg", 2%Z)]))
    = snd (run [] omelette_requests).
Proof.
  apply (rejected_request_keeps_registry (snd (run [] omelette_requests))
           (recipe_payload "Omelette" [("Egg", 2%Z)])).
  vm_compute. reflexivity.
Defined.

(** C8 (code evaluated): [if not entry_name] only rejects falsy names; a
    recipe named by the number 5 is accepted and stored under the key 5. *)
Theorem numeric_name_accepted :
  create_entry [] numeric_name_payload =
    (R200, [(KNum (Qred (inject_Z 5)), Recipe (JInt 5) [])]).
Proof. reflexivity. Qed.

(** ** Flattening: scaling by the multiplier. *)

Lemma scale_dict_add m flat n q :
  scale m (dict_add flat n q) = dict_add (scale m flat) n (m * q).
Proof.
  induction flat as [|[k x] flat IH]; simpl; [reflexivity|].
  destruct (String.eqb n k); simpl.
  - rewrite Z.mul_add_distr_l. reflexivity.
  - rewrite IH. reflexivity.
Qed.

Lemma scale_merge m flat sub :
  scale m (merge flat sub) = merge (scale m flat) (scale m sub).
Proof.
  unfold merge. revert flat.
  induction sub as [|[k q] sub IH]; intros flat; simpl; [reflexivity|].
  rewrite IH, scale_dict_add. reflexivity.
Qed.

Lemma flatten_items_scale rec rec' cb m k reqs flat :
  (forall sub q, rec' sub (m * q)%Z = map_result (scale m) (rec sub q)) ->
  flatten_items rec' cb (m * k) reqs (scale m flat)
    = map_result (scale m) (flatten_items rec cb k reqs flat).
Proof.
  intros Hrec. revert flat.
  induction reqs as [|req rest IH]; intros flat; simpl; [reflexivity|].
  destruct (lookup cb (KStr (ri_name req))) as [[n t|n sub]|]; [| |reflexivity];
    replace (quantity req * (m * k))%Z with (m * (quantity req * k))%Z by ring.
  - rewrite <- scale_dict_add. apply IH.
  - rewrite Hrec. destruct (rec sub (quantity req * k)%Z) as [f| |]; simpl;
      [rewrite <- scale_merge; apply IH | reflexivity | reflexivity].
Qed.

Lemma flatten_recipe_scale fuel cb items m k :
  flatten_recipe fuel cb items (m * k) = map_result (scale m) (flatten_recipe fuel cb items k).
Proof.
  revert items k. induction fuel as [|fuel IH]; intros items k; simpl; [reflexivity|].
  apply (flatten_items_scale _ _ cb m k items []). intros sub q. apply IH.
Qed.

(** ** Flattening: termination and failures. *)

Lemma flatten_items_out_of_fuel rec cb m reqs flat :
  flatten_items rec cb m reqs flat = FOutOfFuel ->
  exists req n sub, In req reqs /\ lookup cb (KStr (ri_name req)) = Some (Recipe n sub) /\
                    rec sub (quantity req * m)%Z = FOutOfFuel.
Proof.
  revert flat. induction reqs as [|req rest IH]; intros flat; simpl; [discriminate|].
  destruct (lookup cb (KStr (ri_name req))) as [[n t|n sub]|] eqn:Hl; [| |discriminate].
  - intros H. destruct (IH _ H) as (req' & n' & sub' & Hin & Hl' & Hr).
    exists req', n', sub'. auto.
  - destruct (rec sub (quantity req * m)%Z) as [f| |] eqn:Hr; intros H; [|discriminate|].
    + destruct (IH _ H) as (req' & n' & sub' & Hin & Hl' & Hr').
      exists req', n', sub'. auto.
    + exists req, n, sub. auto.
Qed.

Lemma out_of_fuel_chain fuel cb items m :
  flatten_recipe fuel cb items m = FOutOfFuel ->
  exists ks, length ks = fuel /\ chain cb items ks.
Proof.
  revert items m. induction fuel as [|fuel IH]; intros items m H.
  - exists []. split; [reflexivity | constructor].
  - simpl in H. destruct (flatten_items_out_of_fuel _ _ _ _ _ H)
      as (req & n & sub & Hin & Hl & Hr).
    destruct (IH _ _ Hr) as (ks & Hlen & Hch).
    exists (KStr (ri_name req) :: ks). split; [simpl; congruence|].
    econstructor; eauto.
Qed.

Lemma chain_keys cb items ks : chain cb items ks -> incl ks (map fst cb).
Proof.
  induction 1 as [|items req n sub ks Hin Hl Hch IH]; [intros ? []|].
  intros k [<-|Hk]; [exact (lookup_some_in _ _ _ Hl) | exact (IH k Hk)].
Qed.

Lemma chain_split cb items l1 b rest :
  chain cb items (l1 ++ b :: rest) ->
  exists n sub, lookup cb b = Some (Recipe n sub) /\ chain cb sub rest.
Proof.
  revert items. induction l1 as [|a l1 IH]; intros items H; simpl in H;
    inversion H as [|? req n sub ks Hin Hl Hch]; subst.
  - eauto.
  - exact (IH _ Hch).
Qed.

Lemma chain_path cb a n sub l2 c rest :
  lookup cb a = Some (Recipe n sub) -> chain cb sub (l2 ++ c :: rest) ->
  clos_trans pykey (refers cb) a c.
Proof.
  revert a n sub. induction l2 as [|b l2 IH]; intros a n sub Ha H; simpl in H;
    inversion H as [|? req n' sub' ks Hin Hl Hch]; subst.
  - apply t_step. exists n, sub, req. auto.
  - apply t_trans with (KStr (ri_name req)).
    + apply t_step. exists n, sub, req. auto.
    + exact (IH _ _ _ Hl Hch).
Qed.

(** With more fuel than entries, an acyclic registry never runs the
    recursion dry. *)
Lemma acyclic_enough_fuel cb items m fuel :
  acyclic cb -> length cb < fuel -> flatten_recipe fuel cb items m <> FOutOfFuel.
Proof.
  intros Hac Hlen H.
  destruct (out_of_fuel_chain _ _ _ _ H) as (ks & Hks & Hch).
  destruct (NoDup_decidable pykey_decidable_eq ks) as [Hnd|Hnd].
  - pose proof (NoDup_incl_length Hnd (chain_keys _ _ _ Hch)) as Hle.
    rewrite length_map in Hle. lia.
  - destruct (not_NoDup pykey_decidable_eq Hnd) as (b & l1 & l2 & l3 & ->).
    destruct (chain_split _ _ _ _ _ Hch) as (n & sub & Hb & Hsub).
    exact (Hac b (chain_path _ _ _ _ _ _ _ Hb Hsub)).
Qed.

Lemma flatten_items_mono rec rec' cb m reqs flat r :
  flatten_items rec cb m reqs flat = r -> r <> FOutOfFuel ->
  (forall sub q, rec sub q <> FOutOfFuel -> rec' sub q = rec sub q) ->
  flatten_items rec' cb m reqs flat = r.
Proof.
  intros H Hr Hrec. subst r. revert flat Hr.
  induction reqs as [|req rest IH]; intros flat Hr; simpl in *; [reflexivity|].
  destruct (lookup cb (KStr (ri_name req))) as [[n t|n sub]|]; [| |reflexivity].
  - apply IH. exact Hr.
  - destruct (rec sub (quantity req * m)%Z) as [f| |] eqn:Hs.
    + rewrite Hrec by congruence. rewrite Hs. apply IH. exact Hr.
    + rewrite Hrec by congruence. rewrite Hs. reflexivity.
    + contradiction.
Qed.

(** A result reached with some fuel is reached with any larger fuel. *)
Lemma flatten_recipe_mono fuel fuel' cb items m r :
  fuel <= fuel' -> flatten_recipe fuel cb items m = r -> r <> FOutOfFuel ->
  flatten_recipe fuel' cb items m = r.
Proof.
  revert fuel' items m r.
  induction fuel as [|fuel IH]; intros fuel' items m r Hle H Hr; simpl in H.
  - subst r. contradiction.
  - destruct fuel' as [|fuel']; [lia|]. simpl.
    apply (flatten_items_mono _ _ _ _ _ _ _ H Hr).
    intros sub q Hq. apply (IH fuel' sub q); [lia | reflexivity | exact Hq].
Qed.

Lemma flatten_items_ok rec cb m reqs flat f :
  flatten_items rec cb m reqs flat = FOk f ->
  forall req, In req reqs ->
  exists e, lookup cb (KStr (ri_name req)) = Some e /\
            forall n sub, e = Recipe n sub -> exists f', rec sub (quantity req * m)%Z = FOk f'.
Proof.
  revert flat. induction reqs as [|req rest IH]; intros flat H req' Hin; [destruct Hin|].
  simpl in H.
  destruct (lookup cb (KStr (ri_name req))) as [[n t|n sub]|] eqn:Hl; [| |discriminate].
  - destruct Hin as [<-|Hin]; [|exact (IH _ H _ Hin)].
    exists (Ingredient n t). split; [exact Hl | discriminate].
  - destruct (rec sub (quantity req * m)%Z) as [f'| |] eqn:Hr; [|discriminate|discriminate].
    destruct Hin as [<-|Hin]; [|exact (IH _ H _ Hin)].
    exists (Recipe n sub). split; [exact Hl|]. intros n' sub' Heq.
    injection Heq as <- <-. eauto.
Qed.

(** A flattening that succeeds found every name it required. *)
Lemma flatten_ok_no_missing cb items :
  requires_missing cb items -> forall fuel m f, flatten_recipe fuel cb items m <> FOk f.
Proof.
  induction 1 as [req items Hin Hl|req items n sub Hin Hl Hmiss IH];
    intros [|fuel] m f H; try discriminate; simpl in H;
    destruct (flatten_items_ok _ _ _ _ _ _ H req Hin) as (e & He & Hrec);
    rewrite Hl in He; [discriminate|].
  injection He as <-. destruct (Hrec n sub eq_refl) as [f' Hf'].
  exact (IH _ _ _ Hf').
Qed.

Lemma rank_acyclic cb (rank : pykey -> nat) :
  (forall a b, refers cb a b -> rank b < rank a) -> acyclic cb.
Proof.
  intros Hrank a Hc.
  assert (Hlt : forall x y, clos_trans pykey (refers cb) x y -> rank y < rank x).
  { induction 1 as [x y Hxy|x y z _ IH1 _ IH2]; [apply Hrank; exact Hxy | lia]. }
  specialize (Hlt a a Hc). lia.
Qed.

Lemma cyclic_out_of_fuel fuel m :
  flatten_recipe fuel (snd (run [] cyclic_requests)) cyclic_items m = FOutOfFuel.
Proof.
  revert m. induction fuel as [|fuel IH]; intros m; [reflexivity|].
  simpl. rewrite IH. reflexivity.
Qed.

(** ** Claims about [/summary] and [flatten_recipe]. *)

(** C7: when flattening a recipe's required items with multiplier 1
    succeeds, flattening them with a positive multiplier [m] gives the same
    accumulator with every quantity multiplied by [m]. *)
Theorem flatten_multiplier_scales fuel cb items m flat :
  (0 < m)%Z -> flatten_recipe fuel cb items 1 = FOk flat ->
  flatten_recipe fuel cb items m = FOk (scale m flat).
Proof.
  intros _ H. pose proof (flatten_recipe_scale fuel cb items m 1) as E.
  rewrite Z.mul_1_r in E. rewrite E, H. reflexivity.
Qed.

Lemma flatten_multiplier_scales_witness :
  flatten_recipe 3
    [(KStr "Egg", Ingredient "Egg" 5);
     (KStr "Omelette", Recipe (JStr "Omelette") [mkRequiredItem "Egg" 2])]
    [mkRequiredItem "Omelette" 2] 3
  = FOk [("Egg", 12%Z)].
Proof.
  apply (flatten_multiplier_scales 3
           [(KStr "Egg", Ingredient "Egg" 5);
            (KStr "Omelette", Recipe (JStr "Omelette") [mkRequiredItem "Egg" 2])]
           [mkRequiredItem "Omelette" 2] 3 [("Egg", 4%Z)]);
    [lia | reflexivity].
Defined.

(** C9, counterexample: the registry reached by registering a recipe [A]
    that requires [A] and then the unregistered [Missing]; [A] requires a
    missing name, yet [GET /summary?name=A] never answers 400: the
    recursion on [A] never returns. *)
Lemma cyclic_recipe_summary_not_400 :
  lookup (snd (run [] cyclic_requests)) (KStr "A") = Some (Recipe (JStr "A") cyclic_items) /\
  requires_missing (snd (run [] cyclic_requests)) cyclic_items /\
  (forall fuel, get_summary fuel (snd (run [] cyclic_requests)) (Some "A") = S500).
Proof.
  split; [reflexivity|]. split.
  - apply (missing_here _ (mkRequiredItem "Missing" 1)); [right; left; reflexivity | reflexivity].
  - intros fuel. unfold get_summary. simpl.
    rewrite cyclic_out_of_fuel. reflexivity.
Qed.

(** C9, amended: in a registry whose recipe-reference graph is acyclic, a
    registered recipe that requires, directly or through nested recipes, a
    name absent from the registry gets 400 from [/summary]. *)
Theorem summary_missing_reference_acyclic cb r n items :
  acyclic cb -> r <> "" -> lookup cb (KStr r) = Some (Recipe n items) ->
  requires_missing cb items ->
  forall fuel, length cb < fuel -> get_summary fuel cb (Some r) = S400.
Proof.
  intros Hac Hr Hl Hmiss fuel Hfuel. unfold get_summary.
  destruct (String.eqb r "") eqn:He; [apply String.eqb_eq in He; contradiction|].
  rewrite Hl.
  destruct (flatten_recipe fuel cb items 1) as [f| |] eqn:Hf.
  - exfalso. exact (flatten_ok_no_missing _ _ Hmiss _ _ _ Hf).
  - reflexivity.
  - exfalso. exact (acyclic_enough_fuel _ _ _ _ Hac Hfuel Hf).
Qed.

(** The registry of the nested example with [Omelette] also requiring the
    unregistered [Salt]; its reference graph is ranked, hence acyclic. *)
Lemma summary_missing_reference_acyclic_witness :
  get_summary 4
    [(KStr "Egg", Ingredient "Egg" 5);
     (KStr "Omelette", Recipe (JStr "Omelette") [mkRequiredItem "Egg" 2; mkRequiredItem "Salt" 1]);
     (KStr "BigOmelette", Recipe (JStr "BigOmelette") [mkRequiredItem "Omelette" 2])]
    (Some "BigOmelette") = S400.
Proof.
  apply (summary_missing_reference_acyclic _ "BigOmelette" (JStr "BigOmelette")
           [mkRequiredItem "Omelette" 2]).
  - apply (rank_acyclic _ (fun k => if pykey_eq_dec k (KStr "BigOmelette") then 2
                                    else if pykey_eq_dec k (KStr "Omelette") then 1 else 0)).
    intros a b (n & items & req & Hl & Hin & ->). simpl in Hl.
    destruct (pykey_eq_dec a (KStr "Egg")); [discriminate|].
    destruct (pykey_eq_dec a (KStr "Omelette")) as [->|];
      [|destruct (pykey_eq_dec a (KStr "BigOmelette")) as [->|]; [|discriminate]];
      injection Hl as <- <-; simpl in Hin;
      repeat destruct Hin as [<-|Hin]; try contradiction; vm_compute; lia.
  - discriminate.
  - reflexivity.
  - apply (missing_nested _ (mkRequiredItem "Omelette" 2) _ (JStr "Omelette")
             [mkRequiredItem "Egg" 2; mkRequiredItem "Salt" 1]);
      [left; reflexivity | reflexivity |].
    apply (missing_here _ (mkRequiredItem "Salt" 1)); [right; left; reflexivity | reflexivity].
  - simpl. lia.
Defined.

(** C10: in a registry with an acyclic recipe-reference graph, flattening
    the required items of any recipe terminates: once the recursion may go
    deeper than the number of entries, the result is a fixed outcome (an
    accumulator or the missing-name error), never a recursion that runs
    dry. *)
Theorem flatten_terminates_when_acyclic cb items m :
  acyclic cb ->
  exists r, r <> FOutOfFuel /\
            forall fuel, length cb < fuel -> flatten_recipe fuel cb items m = r.
Proof.
  intros Hac. exists (flatten_recipe (S (length cb)) cb items m).
  assert (Hr : flatten_recipe (S (length cb)) cb items m <> FOutOfFuel)
    by (apply acyclic_enough_fuel; [exact Hac | lia]).
  split; [exact Hr|].
  intros fuel Hfuel. apply (flatten_recipe_mono (S (length cb))); [lia | reflexivity | exact Hr].
Qed.

Lemma flatten_terminates_when_acyclic_witness :
  exists r, r <> FOutOfFuel /\
    forall fuel, length (snd (run [] omelette_requests)) < fuel ->
      flatten_recipe fuel (snd (run [] omelette_requests)) [mkRequiredItem "Omelette" 2] 1 = r.
Proof.
  apply flatten_terminates_when_acyclic.
  apply (rank_acyclic _ (fun k => if pykey_eq_dec k (KStr "BigOmelette") then 2
                                  else if pykey_eq_dec k (KStr "Omelette") then 1 else 0)).
  intros a b (n & items & req & Hl & Hin & ->). simpl in Hl.
  destruct (pykey_eq_dec a (KStr "ingredient")); [discriminate|].
  destruct (pykey_eq_dec a (KStr "Omelette")) as [->|];
    [|destruct (pykey_eq_dec a (KStr "BigOmelette")) as [->|]; [|discriminate]];
    injection Hl as <- <-; simpl in Hin;
    repeat destruct Hin as [<-|Hin]; try contradiction; vm_compute; lia.
Defined.

(** ** [parse_handwriting]: character facts, checked on all 256 characters. *)

Ltac all_chars :=
  let c := fresh "c" in
  intros c; destruct c as [[] [] [] [] [] [] [] []]; vm_compute;
  first [reflexivity | discriminate | intros; discriminate | tauto | idtac].

Lemma lower_char_alpha c : is_alpha (lower_char c) = is_alpha c.
Proof. revert c; all_chars. Qed.

Lemma lower_char_lower c : is_alpha c = true -> is_lower (lower_char c) = true.
Proof. revert c; all_chars. Qed.

Lemma lower_char_space c : py_isspace (lower_char c) = py_isspace c.
Proof. revert c; all_chars. Qed.

Lemma upper_char_space c : py_isspace (upper_char c) = py_isspace c.
Proof. revert c; all_chars. Qed.

Lemma lower_char_of_lower c : is_lower c = true -> lower_char c = c.
Proof. revert c; all_chars. Qed.

Lemma upper_char_of_lower c : is_lower c = true -> is_upper (upper_char c) = true.
Proof. revert c; all_chars. Qed.

Lemma upper_lower_of_upper c : is_upper c = true -> upper_char (lower_char c) = c.
Proof. revert c; all_chars. Qed.

Lemma lower_lower_of_lower c : is_lower c = true -> lower_char (lower_char c) = c.
Proof. revert c; all_chars. Qed.

Lemma alpha_not_space c : is_alpha c = true -> py_isspace c = false.
Proof. revert c; all_chars. Qed.

Lemma lower_not_upper c : is_lower c = true -> is_upper c = false.
Proof. revert c; all_chars. Qed.

Lemma upper_not_lower c : is_upper c = true -> is_lower c = false.
Proof. revert c; all_chars. Qed.

Lemma lower_not_blank c : is_lower c = true -> Ascii.eqb c " "%char = false.
Proof. revert c; all_chars. Qed.

Lemma upper_not_blank c : is_upper c = true -> Ascii.eqb c " "%char = false.
Proof. revert c; all_chars. Qed.

Lemma lower_is_alpha c : is_lower c = true -> is_alpha c = true.
Proof. unfold is_alpha. intros ->. apply orb_true_r. Qed.

Lemma upper_is_alpha c : is_upper c = true -> is_alpha c = true.
Proof. unfold is_alpha. intros ->. reflexivity. Qed.

(** ** [parse_handwriting]: the pipeline. *)

Lemma keep_lower_clean s : clean (keep_chars (str_lower s)) = true.
Proof.
  induction s as [|c r IH]; [reflexivity|]. simpl.
  destruct (is_alpha (lower_char c)) eqn:Ha; simpl.
  - rewrite lower_char_alpha in Ha. rewrite (lower_char_lower c Ha), IH. reflexivity.
  - destruct (Ascii.eqb (lower_char c) " "%char) eqn:Hb; simpl.
    + rewrite Hb, IH, orb_true_r. reflexivity.
    + destruct (Ascii.eqb (lower_char c) "_"%char || Ascii.eqb (lower_char c) "-"%char);
        simpl; rewrite ?IH, ?orb_true_r; reflexivity.
Qed.

Lemma title_starts_nonspace b r :
  clean r = true -> starts_nonspace (title_from b r) = starts_letter r.
Proof.
  destruct r as [|d r]; [reflexivity|]. simpl. intros H.
  apply andb_prop in H as [Hd _].
  destruct (is_lower d) eqn:Hl; simpl in Hd.
  - rewrite (lower_is_alpha d Hl).
    destruct b; [rewrite (lower_char_of_lower d Hl), (alpha_not_space d (lower_is_alpha d Hl))
                | rewrite upper_char_space, (alpha_not_space d (lower_is_alpha d Hl))]; reflexivity.
  - apply Ascii.eqb_eq in Hd. subst d. destruct b; reflexivity.
Qed.

Lemma py_split_nonempty s : starts_nonspace s = true -> py_split s <> [].
Proof.
  destruct s as [|c r]; simpl; [discriminate|]. intros H.
  apply negb_true_iff in H. rewrite H.
  destruct (starts_nonspace r), (py_split r); discriminate.
Qed.

(** The words [split()] finds in the title-cased loop output are each an
    upper-case letter followed by lower-case ones; a word that continues a
    cased run ([previous_is_cased]) is all lower-case. *)
Lemma title_split_words t :
  clean t = true ->
  Forall (fun w => word_ok w = true) (py_split (title_from false t)) /\
  match py_split (title_from true t) with
  | [] => True
  | w :: ws => (if starts_letter t then lower_run w = true else word_ok w = true) /\
               Forall (fun w => word_ok w = true) ws
  end.
Proof.
  induction t as [|c r IH]; [simpl; auto|]. simpl. intros H.
  apply andb_prop in H as [Hc Hr]. specialize (IH Hr) as [IHA IHB].
  destruct (is_lower c) eqn:Hl; simpl in Hc.
  - pose proof (lower_is_alpha c Hl) as Ha. rewrite Ha.
    rewrite (lower_char_of_lower c Hl), upper_char_space, (alpha_not_space c Ha).
    rewrite (title_starts_nonspace true r Hr).
    destruct (starts_letter r) eqn:Hsr.
    + pose proof (py_split_nonempty (title_from true r)) as Hne.
      rewrite (title_starts_nonspace true r Hr), Hsr in Hne.
      destruct (py_split (title_from true r)) as [|w ws]; [exfalso; exact (Hne eq_refl eq_refl)|].
      destruct IHB as [Hw Hws]. simpl.
      split; constructor; simpl; auto; rewrite ?Hl, ?Hw, ?(upper_char_of_lower c Hl); auto.
    + assert (HF : Forall (fun w => word_ok w = true) (py_split (title_from true r))).
      { destruct (py_split (title_from true r)); [constructor|].
        destruct IHB as [Hw Hws]. constructor; assumption. }
      split; [constructor; [simpl; rewrite (upper_char_of_lower c Hl); reflexivity | exact HF]|].
      simpl. split; [rewrite Hl; reflexivity | exact HF].
  - apply Ascii.eqb_eq in Hc. subst c.
    assert (E : is_alpha " "%char = false) by reflexivity. rewrite E. simpl.
    split; [exact IHA|].
    destruct (py_split (title_from false r)) as [|w ws]; [exact I|].
    inversion IHA; subst. split; assumption.
Qed.

Lemma concat_cons_char c w ws :
  String.concat " " (String c w :: ws) = String c (String.concat " " (w :: ws)).
Proof. destruct ws; reflexivity. Qed.

Lemma lower_run_tc_app r rest :
  lower_run r = true ->
  tc_from true (String.append r (String " "%char rest)) = tc_from false rest.
Proof.
  induction r as [|d r IH]; simpl; [reflexivity|]. intros H.
  apply andb_prop in H as [Hd Hr].
  rewrite (lower_not_blank d Hd), Hd. simpl. apply IH. exact Hr.
Qed.

Lemma lower_run_tc r : lower_run r = true -> tc_from true r = true.
Proof.
  induction r as [|d r IH]; simpl; [reflexivity|]. intros H.
  apply andb_prop in H as [Hd Hr].
  rewrite (lower_not_blank d Hd), Hd. simpl. apply IH. exact Hr.
Qed.

Lemma words_title_cased ws :
  ws <> [] -> Forall (fun w => word_ok w = true) ws ->
  tc_from false (String.concat " " ws) = true.
Proof.
  induction ws as [|w ws IH]; [congruence|]. intros _ HF.
  inversion HF as [|? ? Hw Hws]; subst.
  destruct w as [|c r]; [discriminate|]. simpl in Hw.
  apply andb_prop in Hw as [Hc Hr].
  destruct ws as [|w' ws'].
  - simpl. rewrite (upper_not_blank c Hc), (upper_not_lower c Hc), Hc. simpl.
    apply lower_run_tc. exact Hr.
  - change (String.concat " " (String c r :: w' :: ws'))
      with (String c (String.append r (String " "%char (String.concat " " (w' :: ws'))))).
    simpl. rewrite (upper_not_blank c Hc), (upper_not_lower c Hc), Hc. simpl.
    rewrite (lower_run_tc_app r _ Hr). apply IH; [discriminate | exact Hws].
Qed.

Lemma space_not_letter c : py_isspace c = true -> is_lower c = false /\ is_upper c = false.
Proof. revert c; all_chars; split; reflexivity. Qed.

Lemma tc_from_starts s : tc_from false s = true -> starts_nonspace s = true.
Proof.
  destruct s as [|c r]; simpl; [discriminate|].
  destruct (Ascii.eqb c " "%char); [discriminate|].
  destruct (is_lower c); [discriminate|].
  destruct (is_upper c) eqn:Hu; [|discriminate]. intros _.
  rewrite (alpha_not_space c (upper_is_alpha c Hu)). reflexivity.
Qed.

Lemma tc_from_keep b s : tc_from b s = true -> keep_chars (str_lower s) = str_lower s.
Proof.
  revert b. induction s as [|c r IH]; intros b H; [reflexivity|]. simpl in H |- *.
  destruct (Ascii.eqb c " "%char) eqn:E.
  - apply Ascii.eqb_eq in E. subst c. apply andb_prop in H as [_ H].
    simpl. rewrite (IH _ H). reflexivity.
  - destruct (is_lower c) eqn:Hl.
    + apply andb_prop in H as [_ H].
      rewrite lower_char_alpha, (lower_is_alpha c Hl). simpl. rewrite (IH _ H). reflexivity.
    + destruct (is_upper c) eqn:Hu; [|discriminate]. apply andb_prop in H as [_ H].
      rewrite lower_char_alpha, (upper_is_alpha c Hu). simpl. rewrite (IH _ H). reflexivity.
Qed.

Lemma tc_from_title b s : tc_from b s = true -> title_from b (str_lower s) = s.
Proof.
  revert b. induction s as [|c r IH]; intros b H; [reflexivity|]. simpl in H |- *.
  destruct (Ascii.eqb c " "%char) eqn:E.
  - apply Ascii.eqb_eq in E. subst c. apply andb_prop in H as [Hb H].
    subst b. change (lower_char (lower_char " "%char)) with " "%char.
    change (is_alpha (lower_char " "%char)) with false.
    rewrite (IH _ H). reflexivity.
  - destruct (is_lower c) eqn:Hl.
    + apply andb_prop in H as [Hb H]. subst b.
      rewrite lower_char_alpha, (lower_is_alpha c Hl), (lower_lower_of_lower c Hl), (IH _ H).
      reflexivity.
    + destruct (is_upper c) eqn:Hu; [|discriminate]. apply andb_prop in H as [Hb H].
      apply negb_true_iff in Hb. subst b.
      rewrite lower_char_alpha, (upper_is_alpha c Hu), (upper_lower_of_upper c Hu), (IH _ H).
      reflexivity.
Qed.

Lemma tc_from_split n s b :
  String.length s <= n -> tc_from b s = true -> starts_nonspace s = true ->
  String.concat " " (py_split s) = s.
Proof.
  revert s b. induction n as [|n IH]; intros s b Hlen Htc Hns;
    (destruct s as [|c r]; [discriminate|]); simpl in Hlen; [lia|].
  simpl in Hns. apply negb_true_iff in Hns.
  assert (Hr : tc_from true r = true).
  { simpl in Htc. destruct (Ascii.eqb c " "%char) eqn:E.
    - apply Ascii.eqb_eq in E. subst c. discriminate.
    - destruct (is_lower c); [apply andb_prop in Htc; tauto|].
      destruct (is_upper c); [apply andb_prop in Htc; tauto | discriminate]. }
  simpl. rewrite Hns.
  destruct r as [|d r']; [reflexivity|].
  destruct (py_isspace d) eqn:Hd.
  - assert (Hr' : d = " "%char /\ tc_from false r' = true).
    { simpl in Hr. destruct (Ascii.eqb d " "%char) eqn:Ed.
      - apply Ascii.eqb_eq in Ed. split; assumption.
      - destruct (space_not_letter d Hd) as [E1 E2]. rewrite E1, E2 in Hr. discriminate. }
    destruct Hr' as [Ed Hr'].
    simpl (starts_nonspace (String d r')). rewrite Hd. simpl. rewrite Hd.
    pose proof (tc_from_starts r' Hr') as Hs'.
    pose proof (py_split_nonempty r' Hs') as Hne.
    destruct (py_split r') as [|w ws] eqn:Hsp; [congruence|].
    simpl in Hlen.
    specialize (IH r' false ltac:(lia) Hr' Hs'). rewrite Hsp in IH. subst d.
    change (String.concat " " (String c EmptyString :: w :: ws))
      with (String c (String " "%char (String.concat " " (w :: ws)))).
    rewrite IH. reflexivity.
  - assert (Hs : starts_nonspace (String d r') = true) by (simpl; rewrite Hd; reflexivity).
    pose proof (py_split_nonempty _ Hs) as Hne. rewrite Hs.
    specialize (IH (String d r') true ltac:(lia) Hr Hs).
    destruct (py_split (String d r')) as [|w ws]; [congruence|].
    rewrite concat_cons_char, IH. reflexivity.
Qed.

Lemma parse_output_title_cased s out :
  parse_handwriting s = Some out -> title_cased_name out = true.
Proof.
  unfold parse_handwriting, str_title.
  destruct (title_split_words _ (keep_lower_clean s)) as [HF _].
  destruct (py_split (title_from false (keep_chars (str_lower s)))) as [|w ws] eqn:Hsp;
    [discriminate|].
  destruct (Nat.ltb _ 1); [discriminate|]. intros H. injection H as <-.
  change (tc_from false (String.concat " " (w :: ws)) = true).
  apply words_title_cased; [discriminate | exact HF].
Qed.

Lemma title_cased_fixed out :
  title_cased_name out = true -> parse_handwriting out = Some out.
Proof.
  unfold title_cased_name, parse_handwriting, str_title. intros H.
  rewrite (tc_from_keep false out H), (tc_from_title false out H).
  rewrite (tc_from_split (String.length out) out false (le_n _) H (tc_from_starts out H)).
  destruct out as [|c r]; [discriminate | reflexivity].
Qed.

Lemma has_nonspace_title b t : has_nonspace (title_from b t) = has_nonspace t.
Proof.
  revert b. induction t as [|c r IH]; intros b; [reflexivity|]. simpl.
  rewrite IH. destruct b; rewrite ?lower_char_space, ?upper_char_space; reflexivity.
Qed.

Lemma has_nonspace_keep u : has_nonspace (keep_chars u) = has_letter u.
Proof.
  induction u as [|c r IH]; [reflexivity|]. simpl.
  destruct (is_alpha c) eqn:Ha; simpl.
  - rewrite (alpha_not_space c Ha). reflexivity.
  - destruct (Ascii.eqb c " "%char) eqn:E; simpl.
    + apply Ascii.eqb_eq in E. subst c. simpl. exact IH.
    + destruct (Ascii.eqb c "_"%char || Ascii.eqb c "-"%char); simpl; exact IH.
Qed.

Lemma has_letter_lower s : has_letter (str_lower s) = has_letter s.
Proof.
  induction s as [|c r IH]; [reflexivity|]. simpl. rewrite lower_char_alpha, IH. reflexivity.
Qed.

Lemma py_split_nil_iff u : py_split u = [] <-> has_nonspace u = false.
Proof.
  induction u as [|c r IH]; simpl; [tauto|].
  destruct (py_isspace c); simpl; [exact IH|].
  split; [|discriminate]. destruct (starts_nonspace r), (py_split r); discriminate.
Qed.

Lemma parse_none_iff s : parse_handwriting s = None <-> has_letter s = false.
Proof.
  rewrite <- has_letter_lower, <- has_nonspace_keep, <- (has_nonspace_title false),
    <- py_split_nil_iff.
  unfold parse_handwriting, str_title.
  destruct (title_split_words _ (keep_lower_clean s)) as [HF _].
  destruct (py_split (title_from false (keep_chars (str_lower s)))) as [|w ws];
    [simpl; tauto|].
  inversion HF as [|? ? Hw _]; subst.
  destruct w as [|c r]; [discriminate|].
  rewrite concat_cons_char. simpl. split; discriminate.
Qed.

(** ** Further properties of [parse_handwriting] and [/parse]. *)

(** X1: on an ASCII input, a name returned by [parse_handwriting] is
    title-cased (words of letters, each capitalised, joined by single spaces)
    and parsing it again returns it unchanged. *)
Theorem parse_handwriting_output_stable s out :
  ascii_only s = true -> parse_handwriting s = Some out ->
  title_cased_name out = true /\ parse_handwriting out = Some out.
Proof.
  intros _ H. pose proof (parse_output_title_cased s out H) as Ht.
  split; [exact Ht | apply title_cased_fixed; exact Ht].
Qed.

Lemma parse_handwriting_output_stable_witness :
  ascii_only "Riz@z RISO00tto!" = true /\
  parse_handwriting "Riz@z RISO00tto!" = Some "Rizz Risotto" /\
  title_cased_name "Rizz Risotto" = true /\
  parse_handwriting "Rizz Risotto" = Some "Rizz Risotto".
Proof.
  split; [reflexivity|]. split; [reflexivity|].
  apply (parse_handwriting_output_stable "Riz@z RISO00tto!" "Rizz Risotto");
    reflexivity.
Defined.

(** X2: an ASCII string is returned unchanged by [parse_handwriting] exactly
    when it is already a title-cased name. *)
Theorem parse_handwriting_fixed_points s :
  ascii_only s = true -> (parse_handwriting s = Some s <-> title_cased_name s = true).
Proof.
  intros _. split; [apply parse_output_title_cased | apply title_cased_fixed].
Qed.

Lemma parse_handwriting_fixed_points_witness :
  ascii_only "Meat Ball" = true /\ parse_handwriting "Meat Ball" = Some "Meat Ball" /\
  ascii_only "meat Ball" = true /\ parse_handwriting "meat Ball" <> Some "meat Ball".
Proof.
  split; [reflexivity|]. split.
  - apply (proj2 (parse_handwriting_fixed_points "Meat Ball" eq_refl)). reflexivity.
  - split; [reflexivity|]. intros H.
    apply (proj1 (parse_handwriting_fixed_points "meat Ball" eq_refl)) in H.
    discriminate H.
Defined.

(** X3: on an ASCII input, [parse_handwriting] returns [None] exactly when
    the input contains no letter. *)
Theorem parse_handwriting_none_iff s :
  ascii_only s = true -> (parse_handwriting s = None <-> has_letter s = false).
Proof. intros _. apply parse_none_iff. Qed.

Lemma parse_handwriting_none_iff_witness :
  ascii_only " _-9 " = true /\ parse_handwriting " _-9 " = None.
Proof.
  split; [reflexivity|].
  apply (proj2 (parse_handwriting_none_iff " _-9 " eq_refl)). reflexivity.
Defined.

(** X4: [/parse] on a JSON object whose ["input"] is absent or an ASCII
    string answers 400 exactly when ["input"] is absent or has no letter. *)
Theorem parse_endpoint_400_iff o :
  (forall s, obj_get o "input" = Some (JStr s) -> ascii_only s = true) ->
  (parse (JObj o) = P400 <->
   match obj_get o "input" with
   | None => True
   | Some (JStr s) => has_letter s = false
   | Some _ => False
   end).
Proof.
  intros Ha. unfold parse.
  destruct (obj_get o "input") as [v|] eqn:Hi.
  - destruct v as [| | | | s | |]; try (split; [discriminate | tauto]).
    rewrite <- (parse_none_iff s).
    destruct (parse_handwriting s); split; congruence.
  - split; [tauto | reflexivity].
Qed.

Lemma parse_endpoint_400_iff_witness :
  parse (JObj [("input", JStr "--42--")]) = P400 /\ parse (JObj []) = P400.
Proof.
  split.
  - apply (proj2 (parse_endpoint_400_iff [("input", JStr "--42--")]
                    (fun s H => ltac:(injection H as <-; reflexivity)))).
    reflexivity.
  - apply (proj2 (parse_endpoint_400_iff [] (fun s H => ltac:(discriminate H)))).
    exact I.
Defined.

(** ** Further properties of [/entry] and the registry. *)

Lemma existsb_eqb_false s seen : existsb (String.eqb s) seen = false -> ~ In s seen.
Proof.
  intros He Hin. assert (existsb (String.eqb s) seen = true) as Ht
    by (apply existsb_exists; exists s; split; [exact Hin | apply String.eqb_refl]).
  congruence.
Qed.

Lemma existsb_eqb_true s seen : existsb (String.eqb s) seen = true -> In s seen.
Proof.
  intros He. apply existsb_exists in He as [x [Hin Hx]].
  apply String.eqb_eq in Hx. subst x. exact Hin.
Qed.

Lemma parse_items_wf items l seen :
  Forall2 (fun j r => item_fields j = Some r) items l ->
  (NoDup (map ri_name l ++ seen) -> parse_items items seen = ItemsOk l) /\
  (NoDup seen -> ~ NoDup (map ri_name l ++ seen) -> parse_items items seen = Items400).
Proof.
  intros HF. revert seen. induction HF as [|j r items l Hj HF IH]; intros seen.
  - split; [reflexivity | intros Hs Hn; contradiction].
  - destruct j as [| | | | | |o]; try discriminate Hj. unfold item_fields in Hj.
    destruct (dict_get o "name") as [| | | | s | |] eqn:Hn; try discriminate.
    destruct (py_int (dict_get o "quantity")) as [q|] eqn:Hq; try discriminate.
    destruct (String.eqb s "") eqn:Hs; try discriminate. injection Hj as <-.
    cbn [parse_items]. rewrite Hn, Hq. simpl truthy. rewrite Hs. simpl negb. cbv iota.
    destruct (existsb (String.eqb s) seen) eqn:He.
    + apply existsb_eqb_true in He. split; [|reflexivity].
      intros Hnd. simpl in Hnd. inversion Hnd as [|? ? Hni _]; subst.
      exfalso. apply Hni. apply in_app_iff. right. exact He.
    + apply existsb_eqb_false in He. destruct (IH (s :: seen)) as [IH1 IH2]. split.
      * intros Hnd. rewrite IH1; [reflexivity|].
        apply (Permutation_NoDup (Permutation_middle _ _ _)). exact Hnd.
      * intros Hns Hnd. rewrite IH2; [reflexivity | constructor; assumption |].
        intros H. apply Hnd. simpl.
        apply (Permutation_NoDup (Permutation_sym (Permutation_middle _ _ _))). exact H.
Qed.

(** X5: when every element of [requiredItems] is a dict with a non-empty
    string name and an integer quantity (of any sign), the loop accepts them,
    in order, if their names are pairwise distinct, and answers 400 if two
    names repeat. *)
Theorem parse_items_well_formed items l :
  Forall2 (fun j r => item_fields j = Some r) items l ->
  (NoDup (map ri_name l) -> parse_items items [] = ItemsOk l) /\
  (~ NoDup (map ri_name l) -> parse_items items [] = Items400).
Proof.
  intros HF. destruct (parse_items_wf items l [] HF) as [H1 H2].
  rewrite app_nil_r in H1, H2. split; [exact H1 | apply H2; constructor].
Qed.

Lemma parse_items_well_formed_witness :
  parse_items [JObj [("name", JStr "Egg"); ("quantity", JInt (-2))];
               JObj [("name", JStr "Egg"); ("quantity", JBool true)]] [] = Items400.
Proof.
  apply (proj2 (parse_items_well_formed
                  [JObj [("name", JStr "Egg"); ("quantity", JInt (-2))];
                   JObj [("name", JStr "Egg"); ("quantity", JBool true)]]
                  [mkRequiredItem "Egg" (-2); mkRequiredItem "Egg" 1]
                  ltac:(repeat apply Forall2_cons; try reflexivity; apply Forall2_nil))).
  intros H. inversion H as [|? ? Hn _]. apply Hn. left. reflexivity.
Defined.

(** X6: a recipe request with a truthy name and well-formed required items
    (see [item_fields]) answers 400 and changes nothing when two item names
    repeat; otherwise, if the name is new, it answers 200 and appends the
    recipe, without checking that the required items exist in the cookbook;
    if the name is taken, 400 with nothing changed. *)
Theorem recipe_request_outcome cb o items l k :
  dict_get o "type" = JStr "recipe" -> truthy (dict_get o "name") = true ->
  dict_get o "requiredItems" = JArr items ->
  Forall2 (fun j r => item_fields j = Some r) items l ->
  to_key (dict_get o "name") = Some k ->
  (~ NoDup (map ri_name l) -> create_entry cb (JObj o) = (R400, cb)) /\
  (NoDup (map ri_name l) -> lookup cb k = None ->
     create_entry cb (JObj o) = (R200, cb ++ [(k, Recipe (dict_get o "name") l)])) /\
  (NoDup (map ri_name l) -> lookup cb k <> None -> create_entry cb (JObj o) = (R400, cb)).
Proof.
  intros Ht Hn Hr HF Hk. destruct (parse_items_well_formed items l HF) as [H1 H2].
  unfold create_entry. rewrite Ht. simpl entry_type_of. cbv iota beta.
  rewrite Hn. simpl negb. cbv iota. simpl String.eqb. cbv iota. rewrite Hr.
  split; [intros Hd; rewrite (H2 Hd); reflexivity|].
  split; intros Hd Hl; rewrite (H1 Hd); unfold commit, add_entry; simpl entry_name;
    rewrite Hk; destruct (lookup cb k); try reflexivity; [discriminate | contradiction].
Qed.

Lemma recipe_request_outcome_witness :
  create_entry [] (recipe_payload "Omelette" [("Egg", 2%Z)]) =
    (R200, [(KStr "Omelette", Recipe (JStr "Omelette") [mkRequiredItem "Egg" 2])]).
Proof.
  apply (proj1 (proj2 (recipe_request_outcome []
           [("type", JStr "recipe"); ("name", JStr "Omelette");
            ("requiredItems", JArr [JObj [("name", JStr "Egg"); ("quantity", JInt 2)]])]
           [JObj [("name", JStr "Egg"); ("quantity", JInt 2)]]
           [mkRequiredItem "Egg" 2] (KStr "Omelette")
           eq_refl eq_refl eq_refl
           ltac:(repeat apply Forall2_cons; try reflexivity; apply Forall2_nil)
           eq_refl))).
  - repeat constructor. intros [].
  - reflexivity.
Defined.

(** X7: an ingredient request never crashes the handler (no 500), and it
    answers 200 exactly when the name is truthy, the slot ["ingredient"] is
    free and [cookTime] is a non-negative [int] (a boolean counts as 0 or 1);
    the 200 appends [Ingredient("ingredient", cookTime)] under
    ["ingredient"]. *)
Theorem ingredient_request_outcome cb o r cb' :
  dict_get o "type" = JStr "ingredient" -> create_entry cb (JObj o) = (r, cb') ->
  r <> R500 /\
  (r = R200 <->
   truthy (dict_get o "name") = true /\ lookup cb (KStr "ingredient") = None /\
   exists t, py_int (dict_get o "cookTime") = Some t /\ (0 <= t)%Z /\
             cb' = cb ++ [(KStr "ingredient", Ingredient "ingredient" t)]).
Proof.
  intros Ht H. unfold create_entry in H. rewrite Ht in H. simpl entry_type_of in H.
  cbv iota beta in H. simpl String.eqb in H. cbv iota in H.
  destruct (truthy (dict_get o "name")) eqn:Hn; simpl negb in H; cbv iota in H.
  2: { injection H as <- <-. split; [discriminate|]. split; [discriminate|].
       intros [Hc _]. discriminate Hc. }
  assert (Hno : forall t, py_int (dict_get o "cookTime") = Some t ->
                match dict_get o "cookTime" with JNull => (R400, cb) | _ =>
                  match py_int (dict_get o "cookTime") with None => (R400, cb)
                  | Some t => if (t <? 0)%Z then (R400, cb)
                              else commit cb (Ingredient "ingredient" t) end end
                = if (t <? 0)%Z then (R400, cb) else commit cb (Ingredient "ingredient" t)).
  { intros t Hp. destruct (dict_get o "cookTime"); try discriminate Hp; rewrite Hp; reflexivity. }
  destruct (py_int (dict_get o "cookTime")) as [t|] eqn:Hp.
  - rewrite (Hno t eq_refl) in H. clear Hno.
    destruct (t <? 0)%Z eqn:Hlt.
    + injection H as <- <-. split; [discriminate|]. split; [discriminate|].
      intros (_ & _ & t' & Ht' & Hle & _). injection Ht' as <-.
      apply Z.ltb_lt in Hlt. lia.
    + apply Z.ltb_ge in Hlt. unfold commit, add_entry in H. simpl in H.
      destruct (lookup cb (KStr "ingredient")) eqn:Hl; injection H as <- <-.
      * split; [discriminate|]. split; [discriminate|]. intros (_ & Hc & _). discriminate Hc.
      * split; [discriminate|]. split; [intros _; eauto 10 | reflexivity].
  - replace (match dict_get o "cookTime" with JNull => (R400, cb) | _ => (R400, cb) end)
      with (R400, cb) in H by (destruct (dict_get o "cookTime"); reflexivity).
    injection H as <- <-. split; [discriminate|]. split; [discriminate|].
    intros (_ & _ & t' & Ht' & _). discriminate Ht'.
Qed.

Lemma ingredient_request_outcome_witness :
  create_entry [] (JObj [("type", JStr "ingredient"); ("name", JStr "Egg");
                         ("cookTime", JBool true)])
    = (R200, [(KStr "ingredient", Ingredient "ingredient" 1)]) /\
  exists t, py_int (JBool true) = Some t /\ (0 <= t)%Z /\
    [(KStr "ingredient", Ingredient "ingredient" 1)] =
      [] ++ [(KStr "ingredient", Ingredient "ingredient" t)].
Proof.
  split; [reflexivity|].
  exact (proj2 (proj2 (proj1 (proj2 (ingredient_request_outcome []
           [("type", JStr "ingredient"); ("name", JStr "Egg"); ("cookTime", JBool true)]
           R200 [(KStr "ingredient", Ingredient "ingredient" 1)] eq_refl eq_refl))
           eq_refl))).
Defined.

Lemma lookup_app cb l k :
  lookup (cb ++ l) k = match lookup cb k with Some e => Some e | None => lookup l k end.
Proof.
  induction cb as [|[k' e'] cb IH]; simpl; [reflexivity|].
  destruct (pykey_eq_dec k k'); [reflexivity | exact IH].
Qed.

Lemma lookup_nodup_in cb k e : NoDup (map fst cb) -> In (k, e) cb -> lookup cb k = Some e.
Proof.
  induction cb as [|[k' e'] cb IH]; simpl; [tauto|].
  intros Hnd Hin. inversion Hnd as [|? ? Hk Hnd']; subst.
  destruct (pykey_eq_dec k k') as [<-|Hne].
  - destruct Hin as [Heq|Hin]; [injection Heq as <-; reflexivity|].
    exfalso. apply Hk. apply (in_map fst _ _ Hin).
  - destruct Hin as [Heq|Hin]; [injection Heq as <- _; congruence | exact (IH Hnd' Hin)].
Qed.

Lemma lookup_in cb k e : lookup cb k = Some e -> In (k, e) cb.
Proof.
  induction cb as [|[k' e'] cb IH]; simpl; [discriminate|].
  destruct (pykey_eq_dec k k') as [<-|]; [intros H; injection H as <-; left; reflexivity|].
  intros H. right. exact (IH H).
Qed.

Lemma add_entry_get cb e cb' :
  add_entry cb e = (Added, cb') ->
  get_entry cb' (entry_name e) = Some e /\
  (forall name, to_key name <> to_key (entry_name e) -> get_entry cb' name = get_entry cb name).
Proof.
  intros Ha. destruct (add_entry_cases _ _ _ _ Ha) as [[Hc _]|[_ [k [Hk [Hl ->]]]]];
    [congruence|].
  unfold get_entry. rewrite Hk, lookup_app, Hl. simpl.
  destruct (pykey_eq_dec k k) as [_|]; [|congruence]. split; [reflexivity|].
  intros name Hne. destruct (to_key name) as [k'|]; [|reflexivity].
  rewrite lookup_app. destruct (lookup cb k'); [reflexivity|]. simpl.
  destruct (pykey_eq_dec k' k); [congruence | reflexivity].
Qed.

(** X8: after a successful [add_entry], [get_entry] finds the new entry
    under its own name, and answers for every other key exactly as before. *)
Theorem add_entry_then_get_entry cb e cb' :
  add_entry cb e = (Added, cb') ->
  get_entry cb' (entry_name e) = Some e /\
  (forall name, to_key name <> to_key (entry_name e) -> get_entry cb' name = get_entry cb name).
Proof. apply add_entry_get. Qed.

Lemma add_entry_then_get_entry_witness :
  get_entry [(KStr "Egg", Ingredient "Egg" 5); (KStr "Omelette", Recipe (JStr "Omelette") [])]
    (JStr "Omelette") = Some (Recipe (JStr "Omelette") []) /\
  get_entry [(KStr "Egg", Ingredient "Egg" 5); (KStr "Omelette", Recipe (JStr "Omelette") [])]
    (JStr "Egg") = Some (Ingredient "Egg" 5).
Proof.
  destruct (add_entry_then_get_entry [(KStr "Egg", Ingredient "Egg" 5)]
              (Recipe (JStr "Omelette") [])
              [(KStr "Egg", Ingredient "Egg" 5);
               (KStr "Omelette", Recipe (JStr "Omelette") [])] eq_refl) as [H1 H2].
  split; [exact H1|]. rewrite (H2 (JStr "Egg")); [reflexivity | discriminate].
Defined.

Lemma reachable_names_wf cb : reachable cb -> names_wf cb.
Proof.
  induction 1 as [|cb d Hr IH]; [split; [constructor | intros ? ? []]|].
  destruct (create_entry cb d) as [r cb'] eqn:He. simpl.
  destruct (create_entry_cases _ _ _ _ He) as [[_ ->]|[_ [[t Ha]|[n [items Ha]]]]];
    [exact IH | |];
    (match type of Ha with add_entry cb ?e = _ =>
       replace cb' with (snd (add_entry cb e)) by (rewrite Ha; reflexivity) end);
    apply add_entry_wf; exact IH.
Qed.

(** X9: in every registry the service can reach, each stored entry is
    returned by [get_entry] for its own name (an ingredient, for the name
    ["ingredient"]). *)
Theorem reachable_get_entry cb k e :
  reachable cb -> In (k, e) cb -> get_entry cb (entry_name e) = Some e.
Proof.
  intros Hr Hin. destruct (reachable_names_wf cb Hr) as [Hnd Hk].
  unfold get_entry. rewrite (Hk _ _ Hin). exact (lookup_nodup_in _ _ _ Hnd Hin).
Qed.

Lemma reachable_get_entry_witness :
  get_entry (snd (run [] omelette_requests)) (JStr "ingredient") =
    Some (Ingredient "ingredient" 5).
Proof.
  apply (reachable_get_entry _ (KStr "ingredient") (Ingredient "ingredient" 5)).
  - exact (reachable_step _ (recipe_payload "BigOmelette" [("Omelette", 2%Z)])
             (reachable_step _ (recipe_payload "Omelette" [("Egg", 2%Z)])
               (reachable_step _ (ingredient_payload "Egg" 5) reachable_empty))).
  - vm_compute. left. reflexivity.
Defined.

(** X10: a sequence of [/entry] requests never removes or changes a stored
    entry: whatever was found under a key is still found there afterwards. *)
Theorem run_keeps_entries cb ds k e :
  lookup cb k = Some e -> lookup (snd (run cb ds)) k = Some e.
Proof.
  intros Hl. destruct (run_extends cb ds) as [l ->]. apply lookup_app_l. exact Hl.
Qed.

Lemma run_keeps_entries_witness :
  lookup (snd (run [(KStr "Egg", Ingredient "Egg" 5)]
                  [recipe_payload "Egg" []; ingredient_payload "Egg" 7]))
    (KStr "Egg") = Some (Ingredient "Egg" 5).
Proof. apply run_keeps_entries. reflexivity. Defined.

(** X11: a [/entry] request answered 200 appends exactly one entry, under a
    key absent before, and [get_entry] then finds it under its name. *)
Theorem create_entry_200_adds_one cb d cb' :
  create_entry cb d = (R200, cb') ->
  exists k e, lookup cb k = None /\ cb' = cb ++ [(k, e)] /\ to_key (entry_name e) = Some k /\
              get_entry cb' (entry_name e) = Some e.
Proof.
  intros He.
  destruct (create_entry_cases _ _ _ _ He) as [[Hc _]|[_ [[t Ha]|[n [items Ha]]]]];
    [congruence | |];
    pose proof (proj1 (add_entry_get _ _ _ Ha)) as Hg;
    destruct (add_entry_cases _ _ _ _ Ha) as [[Hc _]|[_ [k [Hk [Hl ->]]]]];
    try congruence; eexists k, _; eauto.
Qed.

Lemma create_entry_200_adds_one_witness :
  exists k e, lookup [] k = None /\
    [(KStr "ingredient", Ingredient "ingredient" 5)] = [] ++ [(k, e)] /\
    to_key (entry_name e) = Some k /\
    get_entry [(KStr "ingredient", Ingredient "ingredient" 5)] (entry_name e) = Some e.
Proof. apply (create_entry_200_adds_one [] (ingredient_payload "Egg" 5)). reflexivity. Defined.

(** ** Further properties of [/summary]. *)

Lemma dict_add_keys flat k v k' :
  In k' (map fst (dict_add flat k v)) <-> k' = k \/ In k' (map fst flat).
Proof.
  induction flat as [|[k0 x] rest IH]; simpl;
    [split; intros [H|[]]; left; congruence|].
  destruct (String.eqb k k0) eqn:E; simpl.
  - apply String.eqb_eq in E. subst k0.
    split; [intros H; right; exact H | intros [->|H]; [left; reflexivity | exact H]].
  - rewrite IH. tauto.
Qed.

Lemma dict_add_nodup flat k v :
  NoDup (map fst flat) -> NoDup (map fst (dict_add flat k v)).
Proof.
  induction flat as [|[k0 x] rest IH]; simpl; intros Hnd.
  - repeat constructor. intros [].
  - inversion Hnd as [|? ? Hk Hnd']; subst.
    destruct (String.eqb k k0) eqn:E; simpl; constructor; auto.
    rewrite dict_add_keys. intros [->|H]; [rewrite String.eqb_refl in E; discriminate | tauto].
Qed.

Lemma merge_nodup flat sub : NoDup (map fst flat) -> NoDup (map fst (merge flat sub)).
Proof.
  unfold merge. revert flat. induction sub as [|[k q] sub IH]; intros flat Hnd; simpl;
    [exact Hnd|]. apply IH. apply dict_add_nodup. exact Hnd.
Qed.

Lemma flatten_items_nodup rec cb m reqs flat f :
  NoDup (map fst flat) -> flatten_items rec cb m reqs flat = FOk f -> NoDup (map fst f).
Proof.
  revert flat. induction reqs as [|req reqs IH]; intros flat Hnd; simpl.
  - intros H. injection H as <-. exact Hnd.
  - destruct (lookup cb (KStr (ri_name req))) as [[n t|n sub]|]; try discriminate.
    + apply IH. apply dict_add_nodup. exact Hnd.
    + destruct (rec sub (quantity req * m)%Z); try discriminate.
      apply IH. apply merge_nodup. exact Hnd.
Qed.

Lemma total_cook_time_spec cb base total acc t l :
  total_cook_time cb base total acc = Some (t, l) ->
  l = acc ++ base /\ t = (total + weighted_total cb base)%Z /\
  forall n q, In (n, q) base -> exists n' ct, lookup cb (KStr n) = Some (Ingredient n' ct).
Proof.
  revert total acc. induction base as [|[n q] rest IH]; intros total acc; simpl.
  - intros H. injection H as <- <-. rewrite app_nil_r. split; [reflexivity|].
    split; [lia | intros ? ? []].
  - destruct (lookup cb (KStr n)) as [[n' ct|]|] eqn:Hl; try discriminate.
    intros H. destruct (IH _ _ H) as [-> [-> Hall]].
    split; [rewrite <- app_assoc; reflexivity|]. split.
    + unfold cook_time_of. rewrite Hl. lia.
    + intros n0 q0 [Heq|Hin]; [injection Heq as <- <-; eauto | exact (Hall _ _ Hin)].
Qed.

Lemma summary_200_shape fuel cb q name t l :
  get_summary fuel cb (Some q) = S200 name t l ->
  name = q /\ NoDup (map fst l) /\
  (forall n x, In (n, x) l -> exists n' ct, lookup cb (KStr n) = Some (Ingredient n' ct)) /\
  t = weighted_total cb l.
Proof.
  unfold get_summary. destruct (String.eqb q ""); [discriminate|].
  destruct (lookup cb (KStr q)) as [[n' ct|n items]|]; try discriminate.
  destruct fuel as [|fuel]; simpl flatten_recipe; [discriminate|].
  destruct (flatten_items _ cb 1 items []) as [base| |] eqn:Hf; try discriminate.
  destruct (total_cook_time cb base 0 []) as [[t' l']|] eqn:Ht; try discriminate.
  intros H. injection H as <- <- <-.
  destruct (total_cook_time_spec _ _ _ _ _ _ Ht) as [-> [-> Hall]].
  simpl app. split; [reflexivity|]. split; [|split; [exact Hall | reflexivity]].
  exact (flatten_items_nodup _ _ _ _ [] _ (NoDup_nil _) Hf).
Qed.

(** X12: a 200 from [/summary] names the requested recipe, lists each
    ingredient name once, every listed name is stored as an [Ingredient], and
    the cook time is the sum of cook time times quantity over the list. *)
Theorem summary_200_consistent fuel cb q name t l :
  get_summary fuel cb (Some q) = S200 name t l ->
  name = q /\ NoDup (map fst l) /\
  (forall n x, In (n, x) l -> exists n' ct, lookup cb (KStr n) = Some (Ingredient n' ct)) /\
  t = weighted_total cb l.
Proof. apply summary_200_shape. Qed.

Lemma summary_200_consistent_witness :
  get_summary 3 egg_registry (Some "BigOmelette") = S200 "BigOmelette" 20 [("Egg", 4%Z)] /\
  20%Z = weighted_total egg_registry [("Egg", 4%Z)].
Proof.
  split; [reflexivity|].
  exact (proj2 (proj2 (proj2 (summary_200_consistent 3 egg_registry "BigOmelette"
                                "BigOmelette" 20 [("Egg", 4%Z)] eq_refl)))).
Defined.

(** X13: in every registry the service can reach, a 200 from [/summary]
    lists at most one ingredient line, and that line is named
    ["ingredient"]. *)
Theorem reachable_summary_single_line cb fuel q name t l :
  reachable cb -> get_summary fuel cb (Some q) = S200 name t l ->
  l = [] \/ exists x, l = [("ingredient", x)].
Proof.
  intros Hr H. destruct (summary_200_shape _ _ _ _ _ _ H) as [_ [Hnd [Hall _]]].
  destruct (reachable_inv cb Hr) as [_ Hing].
  assert (Hn : forall n x, In (n, x) l -> n = "ingredient").
  { intros n x Hin. destruct (Hall n x Hin) as [n' [ct Hl]].
    destruct (Hing _ _ _ (lookup_in _ _ _ Hl)) as [Hk _]. congruence. }
  destruct l as [|[n x] [|[n2 x2] rest]]; [left; reflexivity | |].
  - right. exists x. rewrite (Hn n x (or_introl eq_refl)). reflexivity.
  - exfalso. simpl in Hnd. inversion Hnd as [|? ? Hni _]; subst. apply Hni. left.
    rewrite (Hn n2 x2 (or_intror (or_introl eq_refl))).
    symmetry. exact (Hn n x (or_introl eq_refl)).
Qed.

Lemma reachable_summary_single_line_witness :
  get_summary 3 (snd (run [] [ingredient_payload "Egg" 5;
                              recipe_payload "Omelette" [("ingredient", 2%Z)]]))
    (Some "Omelette") = S200 "Omelette" 10 [("ingredient", 2%Z)] /\
  ([("ingredient", 2%Z)] = [] \/ exists x, [("ingredient", 2%Z)] = [("ingredient", x)]).
Proof.
  split; [reflexivity|].
  apply (reachable_summary_single_line
           (snd (run [] [ingredient_payload "Egg" 5;
                         recipe_payload "Omelette" [("ingredient", 2%Z)]]))
           3 "Omelette" "Omelette" 10).
  - exact (reachable_step _ (recipe_payload "Omelette" [("ingredient", 2%Z)])
             (reachable_step _ (ingredient_payload "Egg" 5) reachable_empty)).
  - reflexivity.
Defined.

(** X14: a recipe with no required items has the summary 200 with cook
    time 0 and no ingredients, as soon as the recursion may run once. *)
Theorem empty_recipe_summary fuel cb r n :
  r <> "" -> lookup cb (KStr r) = Some (Recipe n []) ->
  get_summary (S fuel) cb (Some r) = S200 r 0 [].
Proof.
  intros Hr Hl. unfold get_summary.
  destruct (String.eqb r "") eqn:E; [apply String.eqb_eq in E; contradiction|].
  rewrite Hl. reflexivity.
Qed.

Lemma empty_recipe_summary_witness :
  get_summary 1 (snd (run [] [recipe_payload "Toast" []])) (Some "Toast") = S200 "Toast" 0 [].
Proof.
  apply (empty_recipe_summary 0 _ "Toast" (JStr "Toast")); [discriminate | reflexivity].
Defined.

Lemma dict_add_fsum flat k v k' :
  fsum (dict_add flat k v) k' = (fsum flat k' + (if String.eqb k' k then v else 0))%Z.
Proof.
  induction flat as [|[k0 x] rest IH]; simpl.
  - destruct (String.eqb k' k); lia.
  - destruct (String.eqb k k0) eqn:E; simpl.
    + apply String.eqb_eq in E. subst k0. destruct (String.eqb k' k); lia.
    + rewrite IH. lia.
Qed.

Lemma merge_fsum flat sub k : fsum (merge flat sub) k = (fsum flat k + fsum sub k)%Z.
Proof.
  unfold merge. revert flat. induction sub as [|[k1 q1] sub IH]; intros flat; simpl; [lia|].
  rewrite IH, dict_add_fsum. destruct (String.eqb k k1); lia.
Qed.

Lemma fsum_flat_get flat k : NoDup (map fst flat) -> fsum flat k = flat_get flat k.
Proof.
  induction flat as [|[k0 x] rest IH]; simpl; intros Hnd; [reflexivity|].
  inversion Hnd as [|? ? Hk Hnd']; subst.
  destruct (String.eqb k k0) eqn:E; [|rewrite IH; [lia | exact Hnd']].
  apply String.eqb_eq in E. subst k0.
  assert (Hz : forall l, ~ In k (map fst l) -> fsum l k = 0%Z).
  { induction l as [|[k1 y] l IHl]; simpl; intros Hn; [reflexivity|].
    destruct (String.eqb k k1) eqn:E1; [apply String.eqb_eq in E1; subst; tauto|].
    rewrite IHl; [reflexivity | tauto]. }
  rewrite Hz; [lia | exact Hk].
Qed.

(** X15: the merge loop of [flatten_recipe] adds quantities ingredient by
    ingredient: after merging [sub_flat] into [flat] (both with distinct
    keys), [flat.get(k, 0)] is the old [flat.get(k, 0)] plus
    [sub_flat.get(k, 0)], and the keys stay distinct. *)
Theorem merge_adds_quantities flat sub k :
  NoDup (map fst flat) -> NoDup (map fst sub) ->
  flat_get (merge flat sub) k = (flat_get flat k + flat_get sub k)%Z /\
  NoDup (map fst (merge flat sub)).
Proof.
  intros H1 H2. pose proof (merge_nodup flat sub H1) as H3. split; [|exact H3].
  rewrite <- !fsum_flat_get by assumption. apply merge_fsum.
Qed.

Lemma merge_adds_quantities_witness :
  flat_get (merge [("Egg", 2%Z); ("Milk", 1%Z)] [("Flour", 3%Z); ("Egg", 4%Z)]) "Egg" = 6%Z.
Proof.
  rewrite (proj1 (merge_adds_quantities [("Egg", 2%Z); ("Milk", 1%Z)]
                    [("Flour", 3%Z); ("Egg", 4%Z)] "Egg"
                    ltac:(repeat constructor; simpl; intuition discriminate)
                    ltac:(repeat constructor; simpl; intuition discriminate))).
  reflexivity.
Defined.
